(** * Social Post Generator: scraper and posts domains

    A shallow embedding of [src/domains/scraper/logic.ts],
    [src/domains/posts/{logic,dal,api,models}.ts] and [src/lib/responses/say.ts].

    - JavaScript strings are sequences of UTF-16 code units ([list N]);
      [.length] counts code units.
    - [async] functions are computations over a [World] (the Mongo collection
      and the trace of requests issued so far) that either return or throw.
    - Everything that lives outside the repository (the network, cheerio, the
      URL parser, the OpenAI client, the clock, uuid) is an oracle of [Env]. *)

From Stdlib Require Import String Ascii DecimalString.
From Stdlib Require Import ZArith NArith List Bool Lia Permutation Sorted.
Import ListNotations.

Local Open Scope Z_scope.

(* ================================================================= *)
(** ** JavaScript strings *)

Module JSString.

Definition jsstring := list N.

(** A string literal of the source. *)
Definition lit (s : string) : jsstring :=
  map N_of_ascii (list_ascii_of_string s).

(** [s.length] *)
Definition len (s : jsstring) : Z := Z.of_nat (length s).

(** Truthiness of a string: only the empty string is falsy. *)
Definition truthy (s : jsstring) : bool :=
  match s with [] => false | _ :: _ => true end.

(** [a || d] where [a] may be [undefined]. *)
Definition or_else (a : option jsstring) (d : jsstring) : jsstring :=
  match a with
  | Some s => if truthy s then s else d
  | None => d
  end.

(** The class [\s] of regular expressions, which is also what [trim] strips:
    WhiteSpace and LineTerminator of ECMAScript. *)
Definition is_space (c : N) : bool :=
  (((9 <=? c) && (c <=? 13)) || (c =? 32) || (c =? 160) || (c =? 5760)
   || ((8192 <=? c) && (c <=? 8202)) || (c =? 8232) || (c =? 8233)
   || (c =? 8239) || (c =? 8287) || (c =? 12288) || (c =? 65279))%N.

Fixpoint trimStart (s : jsstring) : jsstring :=
  match s with
  | [] => []
  | c :: r => if is_space c then trimStart r else s
  end.

Definition trimEnd (s : jsstring) : jsstring := rev (trimStart (rev s)).

(** [s.trim()] *)
Definition trim (s : jsstring) : jsstring := trimEnd (trimStart s).

(** [s.replace(/C+/g, by)] for a character class [C]: every maximal run of
    characters of the class is replaced by [by]. [in_run] tells whether the
    previous character belonged to the class. *)
Fixpoint replace_runs (cls : N -> bool) (by_ : jsstring) (in_run : bool)
    (s : jsstring) : jsstring :=
  match s with
  | [] => []
  | c :: r =>
      if cls c then
        if in_run then replace_runs cls by_ true r
        else by_ ++ replace_runs cls by_ true r
      else c :: replace_runs cls by_ false r
  end.

Definition clamp (n i : Z) : Z := Z.max 0 (Z.min i n).

(** [s.substring(a, b)]: both indices are clamped to [0, s.length] and
    swapped when [a > b]. *)
Definition substring (s : jsstring) (a b : Z) : jsstring :=
  let a' := clamp (len s) a in
  let b' := clamp (len s) b in
  let lo := Z.min a' b' in
  let hi := Z.max a' b' in
  firstn (Z.to_nat (hi - lo)) (skipn (Z.to_nat lo) s).

Fixpoint eqb (s t : jsstring) : bool :=
  match s, t with
  | [], [] => true
  | c :: s', d :: t' => (c =? d)%N && eqb s' t'
  | _, _ => false
  end.

Fixpoint starts_with (pat s : jsstring) : bool :=
  match pat, s with
  | [], _ => true
  | p :: pat', c :: s' => (p =? c)%N && starts_with pat' s'
  | _ :: _, [] => false
  end.

(** [s.includes(pat)] *)
Fixpoint includes (s pat : jsstring) : bool :=
  starts_with pat s
  || match s with
     | [] => false
     | _ :: s' => includes s' pat
     end.

(** [`${n}`] for a non-negative integer. *)
Definition of_number (n : Z) : jsstring :=
  lit (NilZero.string_of_uint (N.to_uint (Z.to_N n))).

End JSString.

Import JSString.

(* ================================================================= *)
(** ** Errors ([@hapi/boom]) and thrown values *)

Module Boom.

Record t := mk { statusCode : Z; message : jsstring }.

Definition badRequest (m : jsstring) : t := mk 400 m.
Definition notFound (m : jsstring) : t := mk 404 m.
Definition internal (m : jsstring) : t := mk 500 m.
Definition badGateway (m : jsstring) : t := mk 502 m.

End Boom.

(** What a [throw] can carry: a Boom error, another [Error] with its
    message, or a value that is not an [Error]. *)
Inductive Thrown :=
| ThrownBoom (b : Boom.t)
| ThrownError (message : jsstring)
| ThrownValue.

Definition isBoom (e : Thrown) : bool :=
  match e with ThrownBoom _ => true | _ => false end.

(** [error instanceof Error ? error.message : 'Unknown error'] *)
Definition error_message (e : Thrown) : jsstring :=
  match e with
  | ThrownBoom b => Boom.message b
  | ThrownError m => m
  | ThrownValue => lit "Unknown error"
  end.

Inductive Outcome (A : Type) :=
| Ok (a : A)
| Throw (e : Thrown).
Arguments Ok {A} a.
Arguments Throw {A} e.

(** What a promise of a library ([fetch], [response.text], the OpenAI
    client, [req.json]) rejects with: an [Error] with its message or some
    other value, never a Boom error. *)
Inductive Failure :=
| ErrorWith (message : jsstring)
| NonError.

Definition thrown_of (f : Failure) : Thrown :=
  match f with
  | ErrorWith m => ThrownError m
  | NonError => ThrownValue
  end.

(** A settled promise of a library. *)
Inductive Settled (A : Type) :=
| Resolved (a : A)
| Rejected (f : Failure).
Arguments Resolved {A} a.
Arguments Rejected {A} f.

(* ================================================================= *)
(** ** Data model ([scraper/logic.ts], [posts/models.ts]) *)

Inductive SourceType := url | topic.

Inductive Platform := twitter | linkedin | facebook | instagram.

Definition platform_name (p : Platform) : jsstring :=
  match p with
  | twitter => lit "twitter"
  | linkedin => lit "linkedin"
  | facebook => lit "facebook"
  | instagram => lit "instagram"
  end.

Definition sourceType_name (s : SourceType) : jsstring :=
  match s with url => lit "url" | topic => lit "topic" end.

Module ScrapeResult.
Record t := mk {
  url : jsstring;
  title : jsstring;
  description : jsstring;
  content : jsstring;
  scrapedAt : Z }.
End ScrapeResult.

Module SearchResultItem.
Record t := mk { title : jsstring; url : jsstring; snippet : jsstring }.
End SearchResultItem.

Module SearchResult.
Record t := mk {
  query : jsstring;
  results : list SearchResultItem.t;
  searchedAt : Z }.
End SearchResult.

(** [scrapedData] is a [Mixed] field: it holds whatever the scraper returned. *)
Inductive ScrapedData :=
| Scraped (r : ScrapeResult.t)
| Searched (r : SearchResult.t).

(** [{ platform, content }] as produced by [generatePosts]. *)
Module Variant.
Record t := mk { platform : Platform; content : jsstring }.
End Variant.

Module GeneratedPost.
Record t := mk { platform : Platform; content : jsstring; createdAt : Z }.
End GeneratedPost.

Module Post.
Record t := mk {
  _id : jsstring;
  source : jsstring;
  sourceType : SourceType;
  scrapedData : option ScrapedData;
  generatedPosts : list GeneratedPost.t;
  createdAt : Z;
  updatedAt : Z }.
End Post.

(* ================================================================= *)
(** ** The outside world *)

Module Response.
Record t := mk {
  status : Z;
  statusText : jsstring;
  content_type : option jsstring;   (* headers.get('content-type') *)
  text : Settled jsstring }.        (* await response.text() *)

(** [response.ok]: the status is in the range 200-299. *)
Definition ok (r : t) : bool := (200 <=? status r) && (status r <=? 299).
End Response.

Module URL.
Record t := mk { protocol : jsstring; href : jsstring }.
End URL.

(** One [.result] element of the search page, as the selectors of
    [searchTopic] see it. *)
Module ResultBlock.
Record t := mk {
  link_text : jsstring;            (* $result.find('.result__a').text() *)
  link_href : option jsstring;     (* $result.find('.result__a').attr('href') *)
  snippet_text : jsstring }.       (* $result.find('.result__snippet').text() *)
End ResultBlock.

(** A loaded document, as the selectors of the scraper see it. *)
Module Cheerio.
Record t := mk {
  og_title : option jsstring;
  twitter_title : option jsstring;
  title_text : jsstring;
  og_description : option jsstring;
  twitter_description : option jsstring;
  meta_description : option jsstring;
  (* $('body').text() once script, style, nav, header, footer, aside,
     iframe and noscript have been removed *)
  body_text : jsstring;
  (* $('.result') *)
  result_blocks : list ResultBlock.t }.
End Cheerio.

(** The answer of [openai.chat.completions.create]: when it settles, and
    [choices[0]?.message?.content] or the error it rejects with. *)
Module Completion.
Record t := mk { settledAt : nat; result : Settled (option jsstring) }.
End Completion.

(** Requests that leave the process. *)
Inductive Event :=
| EvFetch (target : jsstring)
| EvCompletion (platform : Platform) (system user : jsstring)
| EvSave (id : jsstring)
| EvFind
| EvFindOne (id : jsstring)
| EvFindOneAndUpdate (id : jsstring).

Record World := mkWorld {
  collection : list Post.t;   (* the [posts] collection, in insertion order *)
  trace : list Event }.

(** External collaborators. An oracle that may answer differently from one
    call to the next takes the number of requests issued before it. *)
Record Env := mkEnv {
  URL_parse : jsstring -> option URL.t;        (* new URL(s); None: it throws *)
  (* new URL(href, base).searchParams.get('uddg'); None: the constructor throws *)
  URL_uddg : jsstring -> jsstring -> option (option jsstring);
  (* the search endpoint with [q] set, as a string *)
  search_url : jsstring -> jsstring;
  net_fetch : jsstring -> nat -> Settled Response.t;
  cheerio_load : jsstring -> Cheerio.t;
  (* process.env.OPENAI_API_KEY as [generatePosts] reads it, at each call *)
  OPENAI_API_KEY : option jsstring;
  (* process.env.OPENAI_API_KEY as it was when the module was imported *)
  OPENAI_API_KEY_on_import : option jsstring;
  (* new OpenAI({ apiKey }) of the [openai] package: returns or throws *)
  new_OpenAI : option jsstring -> Settled unit;
  chat_completions_create : jsstring -> jsstring -> nat -> Completion.t;
  Date_now : nat -> Z;
  (* the reading of [Date.now] that the schema default takes for the
     [createdAt] of the i-th generated post of a document *)
  createdAt_default : nat -> nat -> Z;
  uuidv4 : nat -> jsstring }.

(* ================================================================= *)
(** ** Computations *)

Definition M (A : Type) : Type := World -> Outcome A * World.

Definition ret {A} (a : A) : M A := fun w => (Ok a, w).

Definition throw {A} (e : Thrown) : M A := fun w => (Throw e, w).

Definition bind {A B} (m : M A) (k : A -> M B) : M B :=
  fun w =>
    match m w with
    | (Ok a, w') => k a w'
    | (Throw e, w') => (Throw e, w')
    end.

(** [try { m } catch (error) { h error }] *)
Definition try_catch {A} (m : M A) (h : Thrown -> M A) : M A :=
  fun w =>
    match m w with
    | (Ok a, w') => (Ok a, w')
    | (Throw e, w') => h e w'
    end.

Definition lift {A} (o : Outcome A) : M A := fun w => (o, w).

(** [await] on a promise of a library. *)
Definition await {A} (s : Settled A) : M A :=
  fun w =>
    match s with
    | Resolved a => (Ok a, w)
    | Rejected f => (Throw (thrown_of f), w)
    end.

Definition emit (e : Event) : M unit :=
  fun w => (Ok tt, mkWorld (collection w) (trace w ++ [e])).

(** The number of requests issued so far. *)
Definition tick : M nat := fun w => (Ok (length (trace w)), w).

Notation "x <- m ;; k" := (bind m (fun x => k))
  (at level 61, m at next level, right associativity).
Notation "m ;;; k" := (bind m (fun _ => k))
  (at level 61, right associativity).

Definition throwBoom {A} (b : Boom.t) : M A := throw (ThrownBoom b).

(** [await fetch(target, ...)] *)
Definition fetch (env : Env) (target : jsstring) : M Response.t :=
  k <- tick ;;
  emit (EvFetch target) ;;;
  await (net_fetch env target k).

(** [new Date()] *)
Definition new_Date (env : Env) : M Z :=
  k <- tick ;; ret (Date_now env k).

(* ================================================================= *)
(** ** [ScraperLogic] *)

Module ScraperLogic.

Section WithEnv.
Variable env : Env.

Definition protocol_allowed (u : URL.t) : bool :=
  existsb (eqb (URL.protocol u)) [lit "http:"; lit "https:"].

(** The cleaned text: [bodyText.replace(/\s+/g, ' ').replace(/\n+/g, '\n').trim()] *)
Definition cleanText (bodyText : jsstring) : jsstring :=
  trim
    (replace_runs (N.eqb 10) (lit (String "010"%char EmptyString)) false
       (replace_runs is_space (lit " ") false bodyText)).

(** The returned [content]: the first 5000 characters and an ellipsis. *)
Definition limitContent (cleanedText : jsstring) : jsstring :=
  if len cleanedText >? 5000
  then substring cleanedText 0 5000 ++ lit "..."
  else cleanedText.

Definition scrapeUrl (url_ : jsstring) : M ScrapeResult.t :=
  if negb (truthy url_) then
    throwBoom (Boom.badRequest (lit "URL is required and must be a string"))
  else
  parsedUrl <-
    try_catch
      match URL_parse env url_ with
      | None => throw (ThrownError (lit "Invalid URL"))
      | Some u =>
          if negb (protocol_allowed u)
          then throwBoom (Boom.badRequest (lit "URL must use http or https protocol"))
          else ret u
      end
      (fun _ => throwBoom (Boom.badRequest (lit "Invalid URL format"))) ;;
  try_catch
    (response <- fetch env (URL.href parsedUrl) ;;
     if negb (Response.ok response) then
       throwBoom (Boom.badGateway
         (lit "Failed to fetch URL: " ++ of_number (Response.status response)
            ++ lit " " ++ Response.statusText response))
     else
     let contentType := or_else (Response.content_type response) [] in
     if negb (includes contentType (lit "text/html")) then
       throwBoom (Boom.badRequest
         (lit "URL must return HTML content, got: " ++ contentType))
     else
     html <- await (Response.text response) ;;
     let doc := cheerio_load env html in
     let title :=
       or_else (Cheerio.og_title doc)
         (or_else (Cheerio.twitter_title doc)
            (or_else (Some (Cheerio.title_text doc)) (lit "Untitled"))) in
     let description :=
       or_else (Cheerio.og_description doc)
         (or_else (Cheerio.twitter_description doc)
            (or_else (Cheerio.meta_description doc) [])) in
     let bodyText := Cheerio.body_text doc in
     let cleanedText := cleanText bodyText in
     let content := limitContent cleanedText in
     if negb (truthy content) || (len content <? 10) then
       throwBoom (Boom.badGateway
         (lit "No meaningful content could be extracted from URL"))
     else
     scrapedAt <- new_Date env ;;
     ret (ScrapeResult.mk (URL.href parsedUrl) (trim title) (trim description)
            content scrapedAt))
    (fun error =>
       if isBoom error then throw error
       else throwBoom (Boom.badGateway
              (lit "Failed to scrape URL: " ++ error_message error))).

(** The body of the [.each] callback: what one [.result] block adds. *)
Definition visit (searchUrl : jsstring) (b : ResultBlock.t)
    (results : list SearchResultItem.t) : list SearchResultItem.t :=
  let title := trim (ResultBlock.link_text b) in
  let snippet := trim (ResultBlock.snippet_text b) in
  match ResultBlock.link_href b with
  | Some href =>
      if truthy title && truthy href && truthy snippet then
        match URL_uddg env href searchUrl with
        | Some uddgParam =>
            let finalUrl := or_else uddgParam href in
            results ++ [SearchResultItem.mk title finalUrl snippet]
        | None => results          (* invalid URL: logged and skipped *)
        end
      else results
  | None => results
  end.

(** [$('.result').each(...)]: returning [false] breaks the loop. *)
Fixpoint each (searchUrl : jsstring) (blocks : list ResultBlock.t)
    (results : list SearchResultItem.t) : list SearchResultItem.t :=
  match blocks with
  | [] => results
  | b :: rest =>
      let results' := visit searchUrl b results in
      if Z.of_nat (length results') >=? 10 then results'
      else each searchUrl rest results'
  end.

Definition searchTopic (topic_ : jsstring) : M SearchResult.t :=
  if negb (truthy topic_) then
    throwBoom (Boom.badRequest (lit "Topic is required and must be a string"))
  else
  let trimmedTopic := trim topic_ in
  if len trimmedTopic <? 2 then
    throwBoom (Boom.badRequest (lit "Topic must be at least 2 characters long"))
  else if len trimmedTopic >? 500 then
    throwBoom (Boom.badRequest (lit "Topic must be less than 500 characters"))
  else
  try_catch
    (let searchUrl := search_url env trimmedTopic in
     response <- fetch env searchUrl ;;
     if negb (Response.ok response) then
       throwBoom (Boom.badGateway
         (lit "Search request failed: " ++ of_number (Response.status response)
            ++ lit " " ++ Response.statusText response))
     else
     html <- await (Response.text response) ;;
     let doc := cheerio_load env html in
     let results := each searchUrl (Cheerio.result_blocks doc) [] in
     if Z.of_nat (length results) =? 0 then
       throwBoom (Boom.notFound (lit "No search results found for the given topic"))
     else
     searchedAt <- new_Date env ;;
     ret (SearchResult.mk trimmedTopic results searchedAt))
    (fun error =>
       if isBoom error then throw error
       else throwBoom (Boom.badGateway
              (lit "Failed to search topic: " ++ error_message error))).

End WithEnv.

End ScraperLogic.

(* ================================================================= *)
(** ** [PostsDal]: the [posts] collection

    The collection is held in the [World]; [connectDB] (from [@/lib/db],
    outside these sources) is taken to resolve. The Mongoose schema of
    [models.ts] supplies the defaults ([_id], timestamps, the [createdAt] of
    each generated post) and the [required] validators, which reject an
    empty string. The clock is read once for the timestamps of a post
    ([createdAt] and [updatedAt] of a new post are that one reading) and
    once more for each generated post, whose [createdAt] defaults to
    [Date.now] when the sub-document is built. *)

Module CreatePostData.
Record t := mk {
  source : jsstring;
  sourceType : SourceType;
  scrapedData : option ScrapedData;
  generatedPosts : list Variant.t }.
End CreatePostData.

Module UpdatePostData.
Record t := mk { generatedPosts : option (list Variant.t) }.
End UpdatePostData.

Module PostsDal.

Definition ValidationError : Thrown :=
  ThrownError (lit "Post validation failed").

Definition DuplicateKeyError : Thrown :=
  ThrownError (lit "E11000 duplicate key error collection: posts index: _id_").

(** [GeneratedPostSchema]: [createdAt] defaults to [Date.now]. *)
Definition stamp (now : Z) (v : Variant.t) : GeneratedPost.t :=
  GeneratedPost.mk (Variant.platform v) (Variant.content v) now.

(** The generated posts of a document: the i-th one is stamped with the
    reading [clock i] of its own. *)
Fixpoint stamp_each (clock : nat -> Z) (i : nat) (l : list Variant.t)
    : list GeneratedPost.t :=
  match l with
  | [] => []
  | v :: r => stamp (clock i) v :: stamp_each clock (S i) r
  end.

(** [content: { type: String, required: true }] *)
Definition valid_variants (l : list Variant.t) : bool :=
  forallb (fun v => truthy (Variant.content v)) l.

Definition has_id (id : jsstring) (p : Post.t) : bool := eqb (Post._id p) id.

(** [sort({ createdAt: -1 })] *)
Fixpoint insert_desc (p : Post.t) (l : list Post.t) : list Post.t :=
  match l with
  | [] => [p]
  | q :: r =>
      if Post.createdAt q >? Post.createdAt p
      then q :: insert_desc p r
      else p :: q :: r
  end.

Definition sort_createdAt_desc (l : list Post.t) : list Post.t :=
  fold_right insert_desc [] l.

(** The first document matching [{ _id: id }] is replaced by its update. *)
Fixpoint replace_first (id : jsstring) (f : Post.t -> Post.t)
    (l : list Post.t) : option Post.t * list Post.t :=
  match l with
  | [] => (None, [])
  | p :: r =>
      if has_id id p then (Some (f p), f p :: r)
      else let (o, r') := replace_first id f r in (o, p :: r')
  end.

Definition insertOne (post : Post.t) : M Post.t :=
  fun w =>
    if existsb (has_id (Post._id post)) (collection w)
    then (Throw DuplicateKeyError, w)
    else (Ok post, mkWorld (collection w ++ [post]) (trace w)).

Definition findOne (id : jsstring) : M (option Post.t) :=
  fun w => (Ok (find (has_id id) (collection w)), w).

Definition findOneAndUpdate (id : jsstring) (f : Post.t -> Post.t)
    : M (option Post.t) :=
  fun w =>
    let (o, c) := replace_first id f (collection w) in
    (Ok o, mkWorld c (trace w)).

Section WithEnv.
Variable env : Env.

(** [new PostModel(data).save()] *)
Definition create (data : CreatePostData.t) : M Post.t :=
  now <- new_Date env ;;
  k <- tick ;;
  let post :=
    Post.mk (uuidv4 env k) (CreatePostData.source data)
      (CreatePostData.sourceType data) (CreatePostData.scrapedData data)
      (stamp_each (createdAt_default env k) 0
         (CreatePostData.generatedPosts data)) now now in
  if negb (truthy (Post.source post)
           && valid_variants (CreatePostData.generatedPosts data))
  then throw ValidationError
  else
  emit (EvSave (Post._id post)) ;;;
  insertOne post.

(** [PostModel.find().sort({ createdAt: -1 })] *)
Definition getAll : M (list Post.t) :=
  emit EvFind ;;;
  (fun w => (Ok (sort_createdAt_desc (collection w)), w)).

(** [PostModel.findOne({ _id: id })] *)
Definition getById (id : jsstring) : M (option Post.t) :=
  emit (EvFindOne id) ;;;
  findOne id.

(** The update [{ $set: data }] with [timestamps: true]: [now] is the
    reading of the timestamps, [clock] gives those of the generated posts. *)
Definition set_ (now : Z) (clock : nat -> Z) (data : UpdatePostData.t)
    (p : Post.t) : Post.t :=
  Post.mk (Post._id p) (Post.source p) (Post.sourceType p) (Post.scrapedData p)
    match UpdatePostData.generatedPosts data with
    | Some l => stamp_each clock 0 l
    | None => Post.generatedPosts p
    end
    (Post.createdAt p) now.

(** [PostModel.findOneAndUpdate({ _id: id }, { $set: data },
    { new: true, runValidators: true })] *)
Definition update (id : jsstring) (data : UpdatePostData.t) : M Post.t :=
  now <- new_Date env ;;
  k <- tick ;;
  if negb match UpdatePostData.generatedPosts data with
          | Some l => valid_variants l
          | None => true
          end
  then throw ValidationError
  else
  emit (EvFindOneAndUpdate id) ;;;
  post <- findOneAndUpdate id (set_ now (createdAt_default env k) data) ;;
  match post with
  | None => throwBoom (Boom.notFound (lit "Post not found"))
  | Some p => ret p
  end.

(** [PostModel.deleteOne({ _id: id })]: the first matching document is
    removed; the count of deleted documents is returned. (No entry of the
    trace stands for this request.) *)
Fixpoint remove_first (id : jsstring) (l : list Post.t) : nat * list Post.t :=
  match l with
  | [] => (0%nat, [])
  | p :: r =>
      if has_id id p then (1%nat, r)
      else let (n, r') := remove_first id r in (n, p :: r')
  end.

Definition deleteOne (id : jsstring) : M nat :=
  fun w =>
    let (n, c) := remove_first id (collection w) in
    (Ok n, mkWorld c (trace w)).

Definition delete (id : jsstring) : M unit :=
  deletedCount <- deleteOne id ;;
  if Z.of_nat deletedCount =? 0
  then throwBoom (Boom.notFound (lit "Post not found"))
  else ret tt.

Definition sourceType_eqb (a b : SourceType) : bool :=
  match a, b with
  | url, url | topic, topic => true
  | _, _ => false
  end.

(** [PostModel.find({ sourceType }).sort({ createdAt: -1 })] *)
Definition getBySourceType (sourceType : SourceType) : M (list Post.t) :=
  emit EvFind ;;;
  (fun w =>
     (Ok (sort_createdAt_desc
            (filter (fun p => sourceType_eqb (Post.sourceType p) sourceType)
               (collection w))), w)).

End WithEnv.

End PostsDal.

(* ================================================================= *)
(** ** [PostsLogic] *)

Module PlatformConfig.
Record t := mk { platform : Platform; maxLength : Z; style : jsstring }.
End PlatformConfig.

Module CreatePostInput.
Record t := mk {
  source : jsstring;
  sourceType : SourceType;
  scrapedData : option ScrapedData }.
End CreatePostInput.

Module PostsLogic.

Definition PLATFORM_CONFIGS : list PlatformConfig.t :=
  [ PlatformConfig.mk twitter 280 (lit "concise and engaging with hashtags");
    PlatformConfig.mk linkedin 3000 (lit "professional and insightful");
    PlatformConfig.mk facebook 2000 (lit "conversational and engaging");
    PlatformConfig.mk instagram 2200
      (lit "visual-focused with emojis and hashtags") ].

Definition nl : jsstring := [10%N].

(** Properties read off a [Record<string, any>]. *)
Definition sd_title (sd : ScrapedData) : option jsstring :=
  match sd with Scraped r => Some (ScrapeResult.title r) | Searched _ => None end.
Definition sd_description (sd : ScrapedData) : option jsstring :=
  match sd with Scraped r => Some (ScrapeResult.description r) | Searched _ => None end.
Definition sd_content (sd : ScrapedData) : option jsstring :=
  match sd with Scraped r => Some (ScrapeResult.content r) | Searched _ => None end.
Definition sd_results (sd : ScrapedData) : option (list SearchResultItem.t) :=
  match sd with Scraped _ => None | Searched r => Some (SearchResult.results r) end.

(** [if (v) context += `label${v}\n`] *)
Definition line (label : string) (v : option jsstring) : jsstring :=
  match v with
  | Some s => if truthy s then lit label ++ s ++ nl else []
  | None => []
  end.

(** The [forEach] over the first research results, from [index]. *)
Fixpoint research (index : Z) (l : list SearchResultItem.t) : jsstring :=
  match l with
  | [] => []
  | r :: rest =>
      of_number (index + 1) ++ lit ". " ++ SearchResultItem.title r ++ nl
        ++ lit "   " ++ SearchResultItem.snippet r ++ nl ++ nl
        ++ research (index + 1) rest
  end.

Definition build_context (source : jsstring) (sourceType : SourceType)
    (scrapedData : option ScrapedData) : jsstring :=
  match sourceType with
  | url =>
      lit "URL: " ++ source ++ nl ++ nl
        ++ match scrapedData with
           | Some sd =>
               line "Title: " (sd_title sd)
                 ++ line "Description: " (sd_description sd)
                 ++ line "Content: " (sd_content sd)
           | None => []
           end
  | topic =>
      lit "Topic: " ++ source ++ nl ++ nl
        ++ match scrapedData with
           | Some sd =>
               match sd_results sd with
               | Some results =>
                   lit "Research Results:" ++ nl ++ research 0 (firstn 5 results)
               | None => []
               end
           | None => []
           end
  end.

Definition wants_hashtags (p : Platform) : bool :=
  match p with twitter | instagram => true | _ => false end.

Definition build_prompt (config : PlatformConfig.t) (sourceType : SourceType)
    (context : jsstring) : jsstring :=
  lit "Create a social media post for "
    ++ platform_name (PlatformConfig.platform config)
    ++ lit " based on the following " ++ sourceType_name sourceType ++ lit ":"
    ++ nl ++ nl ++ context ++ nl ++ nl
    ++ lit "Requirements:" ++ nl
    ++ lit "- Style: " ++ PlatformConfig.style config ++ nl
    ++ lit "- Maximum length: " ++ of_number (PlatformConfig.maxLength config)
    ++ lit " characters" ++ nl
    ++ lit "- Make it engaging and shareable" ++ nl
    ++ lit "- "
    ++ (if wants_hashtags (PlatformConfig.platform config)
        then lit "Include relevant hashtags" else [])
    ++ nl ++ nl
    ++ lit "Generate only the post content, no explanations or additional text.".

Definition system_message (config : PlatformConfig.t) : jsstring :=
  lit "You are a professional social media content creator specializing in "
    ++ platform_name (PlatformConfig.platform config) ++ lit ".".

(** [completion.choices[0]?.message?.content?.trim() || ''] *)
Definition completion_content (raw : option jsstring) : jsstring :=
  or_else (option_map trim raw) [].

(** Validate that content does not exceed the platform limit. *)
Definition fit (config : PlatformConfig.t) (content : jsstring) : Variant.t :=
  if len content >? PlatformConfig.maxLength config then
    Variant.mk (PlatformConfig.platform config)
      (substring content 0 (PlatformConfig.maxLength config - 3) ++ lit "...")
  else
    Variant.mk (PlatformConfig.platform config) content.

(** How the promise of one platform settles: the [try] block after the
    [await], or its [catch]. *)
Definition settle (config : PlatformConfig.t) (c : Completion.t)
    : Outcome Variant.t :=
  match Completion.result c with
  | Resolved raw => Ok (fit config (completion_content raw))
  | Rejected _ =>
      Throw (ThrownBoom (Boom.internal
        (lit "Failed to generate post for "
           ++ platform_name (PlatformConfig.platform config))))
  end.

(** [Promise.all]: rejects with the rejection that settles first (the
    earliest in the list among those of one instant), otherwise fulfils with
    all the values in order. *)
Fixpoint first_rejection {A} (l : list (nat * Outcome A))
    : option (nat * Thrown) :=
  match l with
  | [] => None
  | (t, Throw e) :: r =>
      match first_rejection r with
      | Some (t', e') => if (t' <? t)%nat then Some (t', e') else Some (t, e)
      | None => Some (t, e)
      end
  | (_, Ok _) :: r => first_rejection r
  end.

Fixpoint fulfilled {A} (l : list (nat * Outcome A)) : list A :=
  match l with
  | [] => []
  | (_, Ok a) :: r => a :: fulfilled r
  | (_, Throw _) :: r => fulfilled r
  end.

Definition Promise_all {A} (l : list (nat * Outcome A)) : Outcome (list A) :=
  match first_rejection l with
  | Some (_, e) => Throw e
  | None => Ok (fulfilled l)
  end.

(** [l.map(f)] for an [f] that runs up to its first [await]. *)
Fixpoint mapM {A B} (f : A -> M B) (l : list A) : M (list B) :=
  match l with
  | [] => ret []
  | a :: r => b <- f a ;; bs <- mapM f r ;; ret (b :: bs)
  end.

Section WithEnv.
Variable env : Env.

(** [const openai = new OpenAI({ apiKey: process.env.OPENAI_API_KEY })]:
    evaluated once, when the module is imported, with the environment of
    that moment. The functions of the module can be called only where this
    has returned. *)
Definition openai : Settled unit :=
  new_OpenAI env (OPENAI_API_KEY_on_import env).

(** One platform, up to its [await]: the request is sent. *)
Definition request (sourceType : SourceType) (context : jsstring)
    (config : PlatformConfig.t) : M (nat * Outcome Variant.t) :=
  let prompt := build_prompt config sourceType context in
  k <- tick ;;
  emit (EvCompletion (PlatformConfig.platform config)
          (system_message config) prompt) ;;;
  let completion :=
    chat_completions_create env (system_message config) prompt k in
  ret (Completion.settledAt completion, settle config completion).

Definition generatePosts (source : jsstring) (sourceType : SourceType)
    (scrapedData : option ScrapedData) : M (list Variant.t) :=
  if negb (truthy (or_else (OPENAI_API_KEY env) [])) then
    throwBoom (Boom.internal (lit "OpenAI API key is not configured"))
  else
  let context := build_context source sourceType scrapedData in
  promises <- mapM (request sourceType context) PLATFORM_CONFIGS ;;
  lift (Promise_all promises).

(** Scrape or search for content: the body of the [try] of [create]. *)
Definition scrape_or_search (source : jsstring) (sourceType : SourceType)
    : M ScrapedData :=
  match sourceType with
  | url => r <- ScraperLogic.scrapeUrl env source ;; ret (Scraped r)
  | topic => r <- ScraperLogic.searchTopic env source ;; ret (Searched r)
  end.

Definition create (input : CreatePostInput.t) : M Post.t :=
  let source := CreatePostInput.source input in
  let sourceType := CreatePostInput.sourceType input in
  if negb (truthy source) || (len (trim source) =? 0) then
    throwBoom (Boom.badRequest (lit "Source is required"))
  else
  match sourceType with
  | url =>
      match URL_parse env source with
      | Some _ => ret tt
      | None => throwBoom (Boom.badRequest (lit "Invalid URL provided"))
      end
  | topic => ret tt
  end ;;;
  scrapedData <-
    try_catch (scrape_or_search source sourceType)
      (fun error =>
         throwBoom (Boom.badRequest
           (lit "Failed to "
              ++ match sourceType with
                 | url => lit "scrape URL"
                 | topic => lit "search topic"
                 end
              ++ lit ": " ++ error_message error))) ;;
  generatedPosts <- generatePosts source sourceType (Some scrapedData) ;;
  PostsDal.create env
    (CreatePostData.mk source sourceType (Some scrapedData) generatedPosts).

Definition list : M (list Post.t) := PostsDal.getAll.

Definition getById (id : jsstring) : M Post.t :=
  if negb (truthy id) || (len (trim id) =? 0) then
    throwBoom (Boom.badRequest (lit "Post ID is required"))
  else
  post <- PostsDal.getById id ;;
  match post with
  | None => throwBoom (Boom.notFound (lit "Post not found"))
  | Some p => ret p
  end.

Definition regenerate (id : jsstring) : M Post.t :=
  if negb (truthy id) || (len (trim id) =? 0) then
    throwBoom (Boom.badRequest (lit "Post ID is required"))
  else
  post <- PostsDal.getById id ;;
  match post with
  | None => throwBoom (Boom.notFound (lit "Post not found"))
  | Some p =>
      generatedPosts <-
        generatePosts (Post.source p) (Post.sourceType p) (Post.scrapedData p) ;;
      PostsDal.update env id (UpdatePostData.mk (Some generatedPosts))
  end.

Definition getBySourceType (sourceType : SourceType)
    : M (Datatypes.list Post.t) :=
  PostsDal.getBySourceType sourceType.

End WithEnv.

End PostsLogic.

(* ================================================================= *)
(** ** The HTTP boundary ([posts/api.ts], [lib/responses/say.ts]) *)

Inductive Json :=
| JsonPost (p : Post.t)
| JsonPosts (l : list Post.t)
| JsonError (error : jsstring).

Module HttpResponse.
Record t := mk { status : Z; body : Json }.
End HttpResponse.

Definition say (data : Json) (status : Z) : HttpResponse.t :=
  HttpResponse.mk status data.

Definition sayError (message : jsstring) (status : Z) : HttpResponse.t :=
  HttpResponse.mk status (JsonError message).

Module PostsApi.

(** The [catch] clause shared by the handlers. *)
Definition on_error (fallback : string) (error : Thrown) : HttpResponse.t :=
  match error with
  | ThrownBoom b => sayError (Boom.message b) (Boom.statusCode b)
  | _ => sayError (lit fallback) 500
  end.

Definition handler {A} (m : M A) (reply : A -> HttpResponse.t)
    (fallback : string) : World -> HttpResponse.t * World :=
  fun w =>
    match m w with
    | (Ok a, w') => (reply a, w')
    | (Throw e, w') => (on_error fallback e, w')
    end.

Section WithEnv.
Variable env : Env.

Definition listHandler : World -> HttpResponse.t * World :=
  handler (PostsLogic.list)
    (fun posts => say (JsonPosts posts) 200) "Failed to list posts".

(** [req_json] is the outcome of [await req.json()]. *)
Definition createHandler (req_json : Settled CreatePostInput.t)
    : World -> HttpResponse.t * World :=
  handler (body <- await req_json ;; PostsLogic.create env body)
    (fun post => say (JsonPost post) 201) "Failed to create post".

Definition getByIdHandler (id : jsstring) : World -> HttpResponse.t * World :=
  handler (PostsLogic.getById id)
    (fun post => say (JsonPost post) 200) "Failed to get post".

Definition regenerateHandler (id : jsstring) : World -> HttpResponse.t * World :=
  handler (PostsLogic.regenerate env id)
    (fun post => say (JsonPost post) 200) "Failed to regenerate post".

End WithEnv.

End PostsApi.

(* ================================================================= *)
(** ** Concrete worlds used to run the code *)

Module Scenario.

(** A URL parser that knows three schemes. *)
Definition parse (s : jsstring) : option URL.t :=
  if starts_with (lit "https://") s then Some (URL.mk (lit "https:") s)
  else if starts_with (lit "http://") s then Some (URL.mk (lit "http:") s)
  else if starts_with (lit "ftp://") s then Some (URL.mk (lit "ftp:") s)
  else None.

Definition page (body : jsstring) (blocks : list ResultBlock.t) : Cheerio.t :=
  Cheerio.mk None None (lit "Example Domain") None None None body blocks.

(** An environment in which every fetch gets [response], every document
    loads as [doc] and every completion is [answer platform-system-message];
    the key is the same at import and at every call, and the OpenAI client
    is built for any key but a missing one. *)
Definition world_of (response : Settled Response.t) (doc : Cheerio.t)
    (key : option jsstring) (answer : jsstring -> Completion.t) : Env :=
  mkEnv parse (fun _ _ => Some None)
    (fun q => lit "https://html.duckduckgo.com/html/?q=" ++ q)
    (fun _ _ => response) (fun _ => doc) key key
    (fun apiKey =>
       match apiKey with
       | Some _ => Resolved tt
       | None =>
           Rejected (ErrorWith
             (lit "The OPENAI_API_KEY environment variable is missing or empty"))
       end)
    (fun system _ _ => answer system)
    (fun k => 1000 + Z.of_nat k)
    (fun k i => 500 + 10 * Z.of_nat k + Z.of_nat i)
    (fun k => lit "post-" ++ of_number (Z.of_nat k)).

Definition html_response : Settled Response.t :=
  Resolved (Response.mk 200 (lit "OK") (Some (lit "text/html; charset=utf-8"))
        (Resolved (lit "<html></html>"))).

Definition json_response : Settled Response.t :=
  Resolved (Response.mk 200 (lit "OK") (Some (lit "application/json"))
        (Resolved (lit "{}"))).

Definition unavailable_response : Settled Response.t :=
  Resolved (Response.mk 503 (lit "Service Unavailable") (Some (lit "text/html"))
        (Resolved (lit "<html></html>"))).

Definition short_answer (_ : jsstring) : Completion.t :=
  Completion.mk 1 (Resolved (Some (lit "A short post #news"))).

(** Every platform gets 300 characters: too long for twitter only. *)
Definition long_answer (_ : jsstring) : Completion.t :=
  Completion.mk 1 (Resolved (Some (repeat 120%N 300))).

(** The linkedin request is rejected. *)
Definition linkedin_fails (system : jsstring) : Completion.t :=
  if includes system (lit "linkedin")
  then Completion.mk 2 (Rejected (ErrorWith (lit "429 rate limit")))
  else short_answer system.

Definition article : jsstring :=
  lit "An article about   formal" ++ [10%N; 10%N] ++ lit "verification.".

Definition key : option jsstring := Some (lit "sk-test").

Definition env_article : Env := world_of html_response (page article []) key short_answer.
Definition env_long_page : Env :=
  world_of html_response (page (repeat 97%N (Z.to_nat 5001)) []) key short_answer.
Definition env_json : Env := world_of json_response (page article []) key short_answer.
Definition env_unavailable : Env :=
  world_of unavailable_response (page article []) key short_answer.
Definition env_long_answer : Env :=
  world_of html_response (page article []) key long_answer.
Definition env_linkedin_fails : Env :=
  world_of html_response (page article []) key linkedin_fails.

(** A search page with twelve usable results. *)
Definition twelve_blocks : list ResultBlock.t :=
  map (fun i =>
         ResultBlock.mk (lit " Result " ++ of_number (Z.of_nat i))
           (Some (lit "https://r.example/" ++ of_number (Z.of_nat i)))
           (lit "a snippet "))
    (seq 1 12).

Definition env_search : Env :=
  world_of html_response (page [] twelve_blocks) key short_answer.

(** A page with next to nothing in it, and a network that is down. *)
Definition env_thin_page : Env :=
  world_of html_response (page (lit "  tiny  ") []) key short_answer.

Definition env_offline : Env :=
  world_of (Rejected (ErrorWith (lit "fetch failed"))) (page article []) key
    short_answer.

(** The environment [env] after [delete process.env.OPENAI_API_KEY]: the
    module was imported with the key of [env], the guard of [generatePosts]
    finds none. *)
Definition key_removed (env : Env) : Env :=
  mkEnv (URL_parse env) (URL_uddg env) (search_url env) (net_fetch env)
    (cheerio_load env) None (OPENAI_API_KEY_on_import env) (new_OpenAI env)
    (chat_completions_create env) (Date_now env) (createdAt_default env)
    (uuidv4 env).

Definition env_key_removed : Env := key_removed env_article.

(** The completion service answers every platform with white space. *)
Definition blank_answer (_ : jsstring) : Completion.t :=
  Completion.mk 1 (Resolved (Some (lit "   "))).

Definition env_blank_answer : Env :=
  world_of html_response (page article []) key blank_answer.

Definition empty_world : World := mkWorld [] [].

Definition example_url : jsstring := lit "https://example.com".

Definition old_post (id : string) (createdAt : Z) : Post.t :=
  Post.mk (lit id) example_url url
    (Some (Scraped (ScrapeResult.mk example_url (lit "Example Domain") []
                      (lit "An article about formal verification.") 5)))
    [GeneratedPost.mk twitter (lit "old tweet") createdAt] createdAt createdAt.

(** What [env_long_answer] makes of a URL: the tweet is cut to 277
    characters and an ellipsis, the other platforms keep the 300. *)
Definition fitted_variants : list Variant.t :=
  [ Variant.mk twitter (repeat 120%N 277 ++ lit "...");
    Variant.mk linkedin (repeat 120%N 300);
    Variant.mk facebook (repeat 120%N 300);
    Variant.mk instagram (repeat 120%N 300) ].

Definition stored_world : World :=
  mkWorld [old_post "p1" 10; old_post "p2" 30; old_post "p3" 20] [].

End Scenario.

(** Reading an outcome. *)
Definition returned {A} (o : Outcome A) : option A :=
  match o with Ok a => Some a | Throw _ => None end.

Definition thrown {A} (o : Outcome A) : option Thrown :=
  match o with Ok _ => None | Throw e => Some e end.

Definition is_fetch (e : Event) : bool :=
  match e with EvFetch _ => true | _ => false end.

(** An empty string, or one made of white space only. *)
Definition blank (s : jsstring) : bool :=
  negb (truthy s) || (len (trim s) =? 0).


(** ** Vocabulary of the properties *)

(** [m] relates every world it starts from to the world it ends in. *)
Definition Inv {A} (R : World -> World -> Prop) (m : M A) : Prop :=
  forall w o w', m w = (o, w') -> R w w'.

(** The collection is left as it was. *)
Definition keeps (w w' : World) : Prop := collection w' = collection w.

(** The collection is left as it was and nothing was fetched. *)
Definition quiet (w w' : World) : Prop :=
  collection w' = collection w
  /\ exists evs, trace w' = trace w ++ evs
                 /\ forallb (fun e => negb (is_fetch e)) evs = true.

(** The request that [generatePosts] sends for one platform. *)
Definition completion_request (sourceType : SourceType) (context : jsstring)
    (config : PlatformConfig.t) : Event :=
  EvCompletion (PlatformConfig.platform config)
    (PostsLogic.system_message config)
    (PostsLogic.build_prompt config sourceType context).

(** Each platform with the answer to its request, the first request being
    the one numbered [k]. *)
Fixpoint answers (env : Env) (sourceType : SourceType) (context : jsstring)
    (k : nat) (configs : list PlatformConfig.t)
    : list (PlatformConfig.t * Completion.t) :=
  match configs with
  | [] => []
  | config :: rest =>
      (config,
       chat_completions_create env (PostsLogic.system_message config)
         (PostsLogic.build_prompt config sourceType context) k)
        :: answers env sourceType context (S k) rest
  end.

Definition promise_of (a : PlatformConfig.t * Completion.t)
    : nat * Outcome Variant.t :=
  (Completion.settledAt (snd a), PostsLogic.settle (fst a) (snd a)).

Definition raised (c : Completion.t) : Prop :=
  exists f, Completion.result c = Rejected f.

(** All the results that the blocks of a search page yield. *)
Definition usable_results (env : Env) (searchUrl : jsstring)
    (blocks : list ResultBlock.t) : list SearchResultItem.t :=
  flat_map (fun b => ScraperLogic.visit env searchUrl b []) blocks.

(** The page that a fetch returns, when it returns one. *)
Definition fetched_page (env : Env) (target : jsstring) (k : nat)
    : option jsstring :=
  match net_fetch env target k with
  | Resolved response =>
      if Response.ok response then
        match Response.text response with
        | Resolved html => Some html
        | Rejected _ => None
        end
      else None
  | Rejected _ => None
  end.

(** What [create] tells the caller when extraction threw [error]. *)
Definition extraction_failure (sourceType : SourceType) (error : Thrown)
    : Boom.t :=
  Boom.badRequest
    (lit "Failed to "
       ++ match sourceType with
          | url => lit "scrape URL"
          | topic => lit "search topic"
          end
       ++ lit ": " ++ error_message error).

(** The variant [v] is what post-processing makes of the answer [a]: the
    text of the answer when it fits, otherwise its first [maxLength - 3]
    characters and an ellipsis. *)
Definition fitted (a : PlatformConfig.t * Completion.t) (v : Variant.t) : Prop :=
  let config := fst a in
  let max := PlatformConfig.maxLength config in
  exists raw,
    Completion.result (snd a) = Resolved raw
    /\ let text := PostsLogic.completion_content raw in
       Variant.platform v = PlatformConfig.platform config
       /\ len (Variant.content v) <= max
       /\ (len text <= max -> Variant.content v = text)
       /\ (len text > max ->
           Variant.content v = substring text 0 (max - 3) ++ lit "..."
           /\ len (substring text 0 (max - 3)) = max - 3
           /\ len (lit "...") = 3
           /\ len (Variant.content v) = max).

(** What [generatePosts] tells the caller when the platform of [config]
    failed. *)
Definition generation_failure (config : PlatformConfig.t) : Thrown :=
  ThrownBoom (Boom.internal
    (lit "Failed to generate post for "
       ++ platform_name (PlatformConfig.platform config))).

(** The order of [list]: the most recently created first. *)
Definition newer_first (a b : Post.t) : Prop :=
  Post.createdAt a >= Post.createdAt b.

(** ** Vocabulary of the further properties *)

(** No two adjacent characters are both the space character. *)
Fixpoint single_spaced (s : jsstring) : bool :=
  match s with
  | [] => true
  | a :: r =>
      match r with
      | b :: _ => negb ((a =? 32)%N && (b =? 32)%N)
      | [] => true
      end && single_spaced r
  end.

(** Neither the first nor the last character is white space. *)
Definition edge_trimmed (s : jsstring) : Prop :=
  match s with [] => True | c :: _ => is_space c = false end
  /\ match rev s with [] => True | c :: _ => is_space c = false end.

(** No two documents of the collection share their [_id]. *)
Definition unique_ids (w : World) : Prop :=
  NoDup (map Post._id (collection w)).


(** The module [posts/logic.ts] has been imported: its client was built. *)
Definition imported (env : Env) : Prop :=
  PostsLogic.openai env = Resolved tt.

(** The generated posts [gs] are the variants [vs], in order, each with a
    creation time of its own. *)
Definition stamped (vs : list Variant.t) (gs : list GeneratedPost.t) : Prop :=
  Forall2 (fun v g => GeneratedPost.platform g = Variant.platform v
                      /\ GeneratedPost.content g = Variant.content v) vs gs.

(* ================================================================= *)
(** * Properties *)

(** ** Strings *)

Lemma len_app (s t : jsstring) : len (s ++ t) = len s + len t.
Proof. unfold len. rewrite length_app. lia. Qed.

Lemma len_nonneg (s : jsstring) : 0 <= len s.
Proof. unfold len. lia. Qed.

Lemma substring_prefix (s : jsstring) (n : Z) :
  0 <= n <= len s -> substring s 0 n = firstn (Z.to_nat n) s.
Proof.
  intros H. unfold substring, clamp.
  replace (Z.max 0 (Z.min 0 (len s))) with 0 by lia.
  replace (Z.max 0 (Z.min n (len s))) with n by lia.
  replace (Z.min 0 n) with 0 by lia.
  replace (Z.max 0 n) with n by lia.
  now rewrite Z.sub_0_r.
Qed.

Lemma len_substring_prefix (s : jsstring) (n : Z) :
  0 <= n <= len s -> len (substring s 0 n) = n.
Proof.
  intros H. rewrite substring_prefix by assumption.
  unfold len in *. rewrite length_firstn. lia.
Qed.

Lemma trim_nil : trim [] = [].
Proof. reflexivity. Qed.

(** ** Running computations *)

Ltac run :=
  repeat (unfold bind, ret, throw, throwBoom, lift, await, emit, tick, try_catch,
          fetch, new_Date; cbn beta iota).

(** ** The scraper *)

Lemma limitContent_short (c : jsstring) :
  len c <= 5000 -> ScraperLogic.limitContent c = c.
Proof.
  intros H. unfold ScraperLogic.limitContent.
  destruct (len c >? 5000) eqn:E; [lia | reflexivity].
Qed.

(** Past the limit the content is the first 5000 characters followed by the
    three characters of the ellipsis: 5003 characters. *)
Lemma limitContent_long (c : jsstring) :
  len c > 5000 ->
  ScraperLogic.limitContent c = firstn (Z.to_nat 5000) c ++ lit "..."
  /\ len (ScraperLogic.limitContent c) = 5003.
Proof.
  intros H. unfold ScraperLogic.limitContent.
  destruct (len c >? 5000) eqn:E; [| lia].
  rewrite len_app, len_substring_prefix, substring_prefix by lia.
  split; reflexivity.
Qed.

Lemma limitContent_bound (c : jsstring) :
  len (ScraperLogic.limitContent c) <= 5003.
Proof.
  destruct (Z_le_gt_dec (len c) 5000) as [H | H].
  - rewrite limitContent_short by assumption. lia.
  - destruct (limitContent_long c H) as [_ ->]. lia.
Qed.

(** What [scrapeUrl] returns: the content is the cleaned body text of the
    page, limited, and it has between 10 and 5003 characters. *)
Lemma scrapeUrl_returns (env : Env) (url_ : jsstring) (w w' : World)
    (r : ScrapeResult.t) :
  ScraperLogic.scrapeUrl env url_ w = (Ok r, w') ->
  exists html,
    ScrapeResult.content r
    = ScraperLogic.limitContent
        (ScraperLogic.cleanText (Cheerio.body_text (cheerio_load env html)))
    /\ 10 <= len (ScrapeResult.content r) <= 5003.
Proof.
  unfold ScraperLogic.scrapeUrl.
  destruct (truthy url_); cbn [negb]; [| discriminate].
  run.
  destruct (URL_parse env url_) as [u |]; [| discriminate].
  destruct (ScraperLogic.protocol_allowed u); cbn [negb]; [| discriminate].
  destruct (net_fetch env (URL.href u) (length (trace w))) as [response | f];
    [| destruct f; discriminate].
  destruct (Response.ok response); cbn [negb]; [| discriminate].
  destruct (includes (or_else (Response.content_type response) [])
              (lit "text/html")); cbn [negb]; [| discriminate].
  destruct (Response.text response) as [html | f];
    [| destruct f; discriminate].
  set (content := ScraperLogic.limitContent
                    (ScraperLogic.cleanText
                       (Cheerio.body_text (cheerio_load env html)))).
  destruct (negb (truthy content) || (len content <? 10)) eqn:E;
    [discriminate |].
  intros H. inversion H; subst. cbn [ScrapeResult.content].
  exists html. split; [reflexivity |].
  apply orb_false_elim in E. destruct E as [_ E].
  pose proof (limitContent_bound
                (ScraperLogic.cleanText
                   (Cheerio.body_text (cheerio_load env html)))) as Hb.
  fold content in Hb. lia.
Qed.

(** C1 (the code departs from the claim). A page whose cleaned text has 5001
    characters is scraped successfully, and the [content] returned has 5003
    characters: the first 5000 and the ellipsis. The bound of 5000 of the
    claim, which the documentation of [ScrapeResult.content] repeats, is
    exceeded by three. *)
Theorem scrapeUrl_truncated_content_has_5003_characters :
  len (ScraperLogic.cleanText
         (Cheerio.body_text
            (cheerio_load Scenario.env_long_page (lit "<html></html>")))) = 5001
  /\ option_map (fun r => len (ScrapeResult.content r))
       (returned (fst (ScraperLogic.scrapeUrl Scenario.env_long_page
                         Scenario.example_url Scenario.empty_world)))
     = Some 5003.
Proof. split; vm_compute; reflexivity. Qed.

(** C2, as stated, fails: a successful response declared as
    [application/json] makes [scrapeUrl] throw a 400 (bad request), while a
    503 response makes it throw a 502 (bad gateway). *)
Lemma scrapeUrl_json_response_is_bad_request :
  thrown (fst (ScraperLogic.scrapeUrl Scenario.env_json Scenario.example_url
                 Scenario.empty_world))
  = Some (ThrownBoom (Boom.badRequest
            (lit "URL must return HTML content, got: application/json")))
  /\ thrown (fst (ScraperLogic.scrapeUrl Scenario.env_unavailable
                    Scenario.example_url Scenario.empty_world))
     = Some (ThrownBoom (Boom.badGateway
               (lit "Failed to fetch URL: 503 Service Unavailable")))
  /\ ~ (500 <= Boom.statusCode (Boom.badRequest
          (lit "URL must return HTML content, got: application/json")) <= 599).
Proof.
  split; [| split]; try (vm_compute; reflexivity).
  cbn. lia.
Qed.

(** C2, amended. For a valid http(s) URL whose fetch resolves: a response
    that is not a success makes [scrapeUrl] throw a bad gateway (502), and a
    successful response whose declared content type does not contain
    [text/html] makes it throw a bad request (400) that quotes the content
    type. In both cases the fetch is the only request issued. *)
Theorem scrapeUrl_non_html_content_type
    (env : Env) (url_ : jsstring) (u : URL.t) (w : World) (response : Response.t) :
  truthy url_ = true ->
  URL_parse env url_ = Some u ->
  ScraperLogic.protocol_allowed u = true ->
  net_fetch env (URL.href u) (length (trace w)) = Resolved response ->
  let contentType := or_else (Response.content_type response) [] in
  let w' := mkWorld (collection w) (trace w ++ [EvFetch (URL.href u)]) in
  (Response.ok response = false ->
   ScraperLogic.scrapeUrl env url_ w
   = (Throw (ThrownBoom (Boom.badGateway
        (lit "Failed to fetch URL: " ++ of_number (Response.status response)
           ++ lit " " ++ Response.statusText response))), w'))
  /\ (Response.ok response = true ->
      includes contentType (lit "text/html") = false ->
      ScraperLogic.scrapeUrl env url_ w
      = (Throw (ThrownBoom (Boom.badRequest
           (lit "URL must return HTML content, got: " ++ contentType))), w')).
Proof.
  intros Hurl Hparse Hproto Hfetch contentType w'.
  unfold ScraperLogic.scrapeUrl. rewrite Hurl. cbn [negb].
  split.
  - intros Hok. run. rewrite Hparse, Hproto. cbn [negb]. run.
    rewrite Hfetch, Hok. reflexivity.
  - intros Hok Hct. run. rewrite Hparse, Hproto. cbn [negb]. run.
    rewrite Hfetch, Hok. cbn [negb]. fold contentType. rewrite Hct.
    reflexivity.
Qed.

Lemma scrapeUrl_non_html_content_type_witness :
  ScraperLogic.scrapeUrl Scenario.env_json Scenario.example_url
    Scenario.empty_world
  = (Throw (ThrownBoom (Boom.badRequest
       (lit "URL must return HTML content, got: " ++ lit "application/json"))),
     mkWorld [] [EvFetch Scenario.example_url]).
Proof.
  refine (proj2 (scrapeUrl_non_html_content_type Scenario.env_json
            Scenario.example_url (URL.mk (lit "https:") Scenario.example_url)
            Scenario.empty_world
            (Response.mk 200 (lit "OK") (Some (lit "application/json"))
               (Resolved (lit "{}")))
            _ _ _ _) _ _); reflexivity.
Defined.

(** ** What computations leave alone *)

Section Invariants.

Variable R : World -> World -> Prop.
Hypothesis R_refl : forall w, R w w.
Hypothesis R_trans : forall w1 w2 w3, R w1 w2 -> R w2 w3 -> R w1 w3.

Lemma Inv_ret {A} (a : A) : Inv R (ret a).
Proof. intros w o w' H. inversion H; subst. apply R_refl. Qed.

Lemma Inv_throw {A} (e : Thrown) : Inv R (@throw A e).
Proof. intros w o w' H. inversion H; subst. apply R_refl. Qed.

Lemma Inv_throwBoom {A} (b : Boom.t) : Inv R (@throwBoom A b).
Proof. apply Inv_throw. Qed.

Lemma Inv_lift {A} (o : Outcome A) : Inv R (lift o).
Proof. intros w o' w' H. inversion H; subst. apply R_refl. Qed.

Lemma Inv_await {A} (s : Settled A) : Inv R (await s).
Proof. intros w o' w' H. destruct s; inversion H; subst; apply R_refl. Qed.

Lemma Inv_tick : Inv R tick.
Proof. intros w o w' H. inversion H; subst. apply R_refl. Qed.

Lemma Inv_bind {A B} (m : M A) (k : A -> M B) :
  Inv R m -> (forall a, Inv R (k a)) -> Inv R (bind m k).
Proof.
  intros Hm Hk w o w' H. unfold bind in H.
  destruct (m w) as [[a | e] w1] eqn:E.
  - eapply R_trans; [eapply Hm | eapply Hk]; eassumption.
  - inversion H; subst. eapply Hm; eassumption.
Qed.

Lemma Inv_try_catch {A} (m : M A) (h : Thrown -> M A) :
  Inv R m -> (forall e, Inv R (h e)) -> Inv R (try_catch m h).
Proof.
  intros Hm Hh w o w' H. unfold try_catch in H.
  destruct (m w) as [[a | e] w1] eqn:E.
  - inversion H; subst. eapply Hm; eassumption.
  - eapply R_trans; [eapply Hm | eapply Hh]; eassumption.
Qed.

Lemma Inv_new_Date (env : Env) : Inv R (new_Date env).
Proof. apply Inv_bind; [apply Inv_tick | intros; apply Inv_ret]. Qed.

Lemma Inv_emit (e : Event) :
  (forall w, R w (mkWorld (collection w) (trace w ++ [e]))) -> Inv R (emit e).
Proof. intros He w o w' H. inversion H; subst. apply He. Qed.

End Invariants.

Lemma keeps_refl w : keeps w w.
Proof. reflexivity. Qed.

Lemma keeps_trans w1 w2 w3 : keeps w1 w2 -> keeps w2 w3 -> keeps w1 w3.
Proof. unfold keeps. congruence. Qed.

Lemma quiet_refl w : quiet w w.
Proof. split; [reflexivity |]. exists []. now rewrite app_nil_r. Qed.

Lemma quiet_trans w1 w2 w3 : quiet w1 w2 -> quiet w2 w3 -> quiet w1 w3.
Proof.
  intros [C1 (e1 & T1 & F1)] [C2 (e2 & T2 & F2)]. split; [congruence |].
  exists (e1 ++ e2). rewrite T2, T1, app_assoc, forallb_app, F1, F2. now split.
Qed.

Lemma keeps_emit e w : keeps w (mkWorld (collection w) (trace w ++ [e])).
Proof. reflexivity. Qed.

(** One step of a proof that a computation leaves the collection alone. *)
Ltac keeps_step :=
  first
    [ apply Inv_ret; apply keeps_refl
    | apply Inv_throw; apply keeps_refl
    | apply Inv_throwBoom; apply keeps_refl
    | apply Inv_lift; apply keeps_refl
    | apply Inv_await; apply keeps_refl
    | apply Inv_tick; apply keeps_refl
    | apply Inv_new_Date; [apply keeps_refl | apply keeps_trans]
    | apply Inv_emit; apply keeps_emit
    | apply Inv_bind; [apply keeps_trans | | intros ?]
    | apply Inv_try_catch; [apply keeps_trans | | intros ?]
    | match goal with
      | |- Inv _ (if ?b then _ else _) => destruct b
      | |- Inv _ (match ?x with _ => _ end) => destruct x
      | |- Inv _ (let _ := _ in _) => cbv zeta
      end ].

Lemma fetch_keeps env target : Inv keeps (fetch env target).
Proof. unfold fetch. repeat keeps_step. Qed.

Lemma scrapeUrl_keeps env url_ : Inv keeps (ScraperLogic.scrapeUrl env url_).
Proof.
  unfold ScraperLogic.scrapeUrl.
  repeat first [apply fetch_keeps | keeps_step].
Qed.

Lemma searchTopic_keeps env topic_ :
  Inv keeps (ScraperLogic.searchTopic env topic_).
Proof.
  unfold ScraperLogic.searchTopic.
  repeat first [apply fetch_keeps | keeps_step].
Qed.

Lemma scrape_or_search_keeps env source sourceType :
  Inv keeps (PostsLogic.scrape_or_search env source sourceType).
Proof.
  unfold PostsLogic.scrape_or_search. destruct sourceType.
  - apply Inv_bind; [apply keeps_trans | apply scrapeUrl_keeps |].
    intros r. apply Inv_ret, keeps_refl.
  - apply Inv_bind; [apply keeps_trans | apply searchTopic_keeps |].
    intros r. apply Inv_ret, keeps_refl.
Qed.

(** ** Errors of the extractor during [create] *)

Lemma create_unfold (env : Env) (input : CreatePostInput.t) (w : World) :
  blank (CreatePostInput.source input) = false ->
  (CreatePostInput.sourceType input = url ->
   URL_parse env (CreatePostInput.source input) <> None) ->
  PostsLogic.create env input w
  = match PostsLogic.scrape_or_search env (CreatePostInput.source input)
            (CreatePostInput.sourceType input) w with
    | (Ok sd, w1) =>
        bind (PostsLogic.generatePosts env (CreatePostInput.source input)
                (CreatePostInput.sourceType input) (Some sd))
          (fun generatedPosts =>
             PostsDal.create env
               (CreatePostData.mk (CreatePostInput.source input)
                  (CreatePostInput.sourceType input) (Some sd) generatedPosts))
          w1
    | (Throw e, w1) =>
        (Throw (ThrownBoom
           (extraction_failure (CreatePostInput.sourceType input) e)), w1)
    end.
Proof.
  intros Hsrc Hurl. unfold PostsLogic.create.
  unfold blank in Hsrc. rewrite Hsrc.
  assert (Hpre : (match CreatePostInput.sourceType input with
                  | url =>
                      match URL_parse env (CreatePostInput.source input) with
                      | Some _ => ret tt
                      | None =>
                          throwBoom (Boom.badRequest (lit "Invalid URL provided"))
                      end
                  | topic => ret tt
                  end) w = (Ok tt, w)).
  { destruct (CreatePostInput.sourceType input); [| reflexivity].
    destruct (URL_parse env (CreatePostInput.source input));
      [reflexivity | exfalso; now apply Hurl]. }
  unfold bind at 1. rewrite Hpre.
  unfold bind at 1. unfold try_catch.
  destruct (PostsLogic.scrape_or_search env (CreatePostInput.source input)
              (CreatePostInput.sourceType input) w) as [[sd | e] w1];
    reflexivity.
Qed.

(** C3, as stated, fails: on a 503 from the target the extractor throws a
    bad gateway (502), but [create] throws a bad request in its place and
    the HTTP boundary answers 400. *)
Lemma create_turns_bad_gateway_into_400 :
  let input := CreatePostInput.mk Scenario.example_url url None in
  thrown (fst (ScraperLogic.scrapeUrl Scenario.env_unavailable
                 Scenario.example_url Scenario.empty_world))
  = Some (ThrownBoom (Boom.badGateway
            (lit "Failed to fetch URL: 503 Service Unavailable")))
  /\ thrown (fst (PostsLogic.create Scenario.env_unavailable input
                    Scenario.empty_world))
     = Some (ThrownBoom (Boom.badRequest
               (lit "Failed to scrape URL: Failed to fetch URL: 503 Service Unavailable")))
  /\ HttpResponse.status
       (fst (PostsApi.createHandler Scenario.env_unavailable (Resolved input)
               Scenario.empty_world)) = 400.
Proof. repeat split; vm_compute; reflexivity. Qed.

(** C3, amended. Whatever the extractor throws during [create] (a bad
    gateway included) is caught by [create] and replaced by a bad request
    whose message quotes the message of the original error; the HTTP boundary
    answers with status 400 and that message, and nothing is stored. *)
Theorem create_extraction_error_becomes_bad_request
    (env : Env) (input : CreatePostInput.t) (w w1 : World) (error : Thrown) :
  blank (CreatePostInput.source input) = false ->
  (CreatePostInput.sourceType input = url ->
   URL_parse env (CreatePostInput.source input) <> None) ->
  PostsLogic.scrape_or_search env (CreatePostInput.source input)
    (CreatePostInput.sourceType input) w = (Throw error, w1) ->
  let b := extraction_failure (CreatePostInput.sourceType input) error in
  PostsLogic.create env input w = (Throw (ThrownBoom b), w1)
  /\ PostsApi.createHandler env (Resolved input) w
     = (sayError (Boom.message b) 400, w1)
  /\ Boom.statusCode b = 400
  /\ collection w1 = collection w.
Proof.
  intros Hsrc Hurl Hext b.
  assert (Hc : PostsLogic.create env input w = (Throw (ThrownBoom b), w1)).
  { rewrite create_unfold by assumption. now rewrite Hext. }
  split; [exact Hc | split; [| split]].
  - unfold PostsApi.createHandler, PostsApi.handler. run. now rewrite Hc.
  - reflexivity.
  - eapply scrape_or_search_keeps. eassumption.
Qed.

Lemma create_extraction_error_becomes_bad_request_witness :
  let input := CreatePostInput.mk Scenario.example_url url None in
  PostsApi.createHandler Scenario.env_unavailable (Resolved input)
    Scenario.empty_world
  = (sayError
       (lit "Failed to scrape URL: Failed to fetch URL: 503 Service Unavailable")
       400,
     mkWorld [] [EvFetch Scenario.example_url]).
Proof.
  refine (proj1 (proj2 (create_extraction_error_becomes_bad_request
            Scenario.env_unavailable
            (CreatePostInput.mk Scenario.example_url url None)
            Scenario.empty_world
            (mkWorld [] [EvFetch Scenario.example_url])
            (ThrownBoom (Boom.badGateway
               (lit "Failed to fetch URL: 503 Service Unavailable")))
            _ _ _))).
  - reflexivity.
  - intros _. discriminate.
  - reflexivity.
Defined.

(** ** Validation of the arguments *)

(** C6. A topic whose trimmed length is below 2 or above 500 makes
    [searchTopic] throw a bad request (400), and the world is returned as it
    was: no request has been issued. *)
Theorem searchTopic_rejects_bad_length (env : Env) (topic_ : jsstring) (w : World) :
  len (trim topic_) < 2 \/ len (trim topic_) > 500 ->
  exists message,
    ScraperLogic.searchTopic env topic_ w
    = (Throw (ThrownBoom (Boom.badRequest message)), w).
Proof.
  intros H. unfold ScraperLogic.searchTopic.
  destruct (truthy topic_); cbn [negb].
  - destruct (len (trim topic_) <? 2) eqn:E2; [eexists; reflexivity |].
    destruct (len (trim topic_) >? 500) eqn:E5; [eexists; reflexivity |].
    lia.
  - eexists; reflexivity.
Qed.

Lemma searchTopic_rejects_bad_length_witness :
  exists message,
    ScraperLogic.searchTopic Scenario.env_article (lit "  a  ")
      Scenario.empty_world
    = (Throw (ThrownBoom (Boom.badRequest message)), Scenario.empty_world).
Proof.
  apply (searchTopic_rejects_bad_length Scenario.env_article (lit "  a  ")
           Scenario.empty_world).
  left. vm_compute. reflexivity.
Defined.

(** C10. An id that is empty or white space only makes [getById] and
    [regenerate] throw the bad request (400) 'Post ID is required', and the
    world is returned as it was: the store has not been consulted. *)
Theorem blank_id_is_bad_request (env : Env) (id : jsstring) (w : World) :
  blank id = true ->
  let e := ThrownBoom (Boom.badRequest (lit "Post ID is required")) in
  PostsLogic.getById id w = (Throw e, w)
  /\ PostsLogic.regenerate env id w = (Throw e, w)
  /\ Boom.statusCode (Boom.badRequest (lit "Post ID is required")) = 400
  /\ Boom.statusCode (Boom.badRequest (lit "Post ID is required"))
     <> Boom.statusCode (Boom.notFound (lit "Post not found")).
Proof.
  intros H e. unfold blank in H.
  unfold PostsLogic.getById, PostsLogic.regenerate. rewrite H.
  repeat split. cbn. lia.
Qed.

Lemma blank_id_is_bad_request_witness :
  let e := ThrownBoom (Boom.badRequest (lit "Post ID is required")) in
  PostsLogic.getById (lit "   ") Scenario.stored_world
  = (Throw e, Scenario.stored_world)
  /\ PostsLogic.regenerate Scenario.env_article (lit "   ")
       Scenario.stored_world
     = (Throw e, Scenario.stored_world).
Proof.
  pose proof (blank_id_is_bad_request Scenario.env_article (lit "   ")
                Scenario.stored_world eq_refl) as H.
  split; [exact (proj1 H) | exact (proj1 (proj2 H))].
Defined.

(** ** The search loop *)

Lemma visit_app (env : Env) (searchUrl : jsstring) (b : ResultBlock.t)
    (acc : list SearchResultItem.t) :
  ScraperLogic.visit env searchUrl b acc
  = acc ++ ScraperLogic.visit env searchUrl b [].
Proof.
  unfold ScraperLogic.visit.
  destruct (ResultBlock.link_href b) as [href |]; [| now rewrite app_nil_r].
  destruct (truthy (trim (ResultBlock.link_text b)) && truthy href
            && truthy (trim (ResultBlock.snippet_text b)));
    [| now rewrite app_nil_r].
  destruct (URL_uddg env href searchUrl); [reflexivity | now rewrite app_nil_r].
Qed.

Lemma visit_at_most_one (env : Env) (searchUrl : jsstring) (b : ResultBlock.t) :
  (length (ScraperLogic.visit env searchUrl b []) <= 1)%nat.
Proof.
  unfold ScraperLogic.visit.
  destruct (ResultBlock.link_href b) as [href |]; simpl; [| lia].
  destruct (truthy (trim (ResultBlock.link_text b)) && truthy href
            && truthy (trim (ResultBlock.snippet_text b))); simpl; [| lia].
  destruct (URL_uddg env href searchUrl); simpl; lia.
Qed.

(** The loop stops at ten: it collects the first ten usable results. *)
Lemma each_collects_first_ten (env : Env) (searchUrl : jsstring)
    (blocks : list ResultBlock.t) (acc : list SearchResultItem.t) :
  (length acc < 10)%nat ->
  ScraperLogic.each env searchUrl blocks acc
  = firstn 10 (acc ++ usable_results env searchUrl blocks).
Proof.
  revert acc. induction blocks as [| b rest IH]; intros acc Hacc.
  - cbn [ScraperLogic.each usable_results flat_map].
    rewrite app_nil_r. symmetry. apply firstn_all2. lia.
  - cbn [ScraperLogic.each usable_results flat_map].
    fold (usable_results env searchUrl rest).
    rewrite visit_app.
    pose proof (visit_at_most_one env searchUrl b) as H1.
    set (item := ScraperLogic.visit env searchUrl b []) in *.
    rewrite app_assoc.
    destruct (Z.of_nat (length (acc ++ item)) >=? 10) eqn:E.
    + rewrite Z.geb_leb in E. apply Z.leb_le in E.
      assert (Hlen : length (acc ++ item) = 10%nat).
      { rewrite length_app in *. lia. }
      rewrite firstn_app, <- Hlen, firstn_all, Nat.sub_diag.
      simpl. now rewrite app_nil_r.
    + rewrite Z.geb_leb in E. apply Z.leb_gt in E. apply IH. lia.
Qed.

Lemma firstn_10_bound {A} (l : list A) : Z.of_nat (length (firstn 10 l)) <= 10.
Proof. rewrite length_firstn. lia. Qed.

(** C5, as stated, fails: for the topic [ab] and a search endpoint that
    answers 503, [searchTopic] neither returns results nor throws the 404
    of an empty search: it throws a bad gateway (502). *)
Lemma searchTopic_can_fail_with_bad_gateway :
  len (trim (lit "ab")) = 2
  /\ ScraperLogic.searchTopic Scenario.env_unavailable (lit "ab")
       Scenario.empty_world
     = (Throw (ThrownBoom (Boom.badGateway
          (lit "Search request failed: 503 Service Unavailable"))),
        mkWorld [] [EvFetch (lit "https://html.duckduckgo.com/html/?q=ab")])
  /\ Boom.statusCode (Boom.badGateway
       (lit "Search request failed: 503 Service Unavailable")) <> 404.
Proof. repeat split; try (vm_compute; reflexivity). cbn. lia. Qed.

(** C5, amended. For a topic whose trimmed length is in [2, 500],
    [searchTopic] issues one search request and
    - when the request yields a page with at least one usable result, returns
      the first ten usable results at most (between 1 and 10 results);
    - when the page has no usable result, throws not found (404);
    - when the request fails, is answered with a status that is not a
      success, or its body cannot be read, throws a bad gateway (502).
    It never throws a bad request (400). *)
Theorem searchTopic_outcomes (env : Env) (topic_ : jsstring) (w : World) :
  2 <= len (trim topic_) <= 500 ->
  let query := trim topic_ in
  let searchUrl := search_url env query in
  let w1 := mkWorld (collection w) (trace w ++ [EvFetch searchUrl]) in
  match fetched_page env searchUrl (length (trace w)) with
  | Some html =>
      let results :=
        firstn 10 (usable_results env searchUrl
                     (Cheerio.result_blocks (cheerio_load env html))) in
      match results with
      | [] =>
          ScraperLogic.searchTopic env topic_ w
          = (Throw (ThrownBoom (Boom.notFound
               (lit "No search results found for the given topic"))), w1)
      | _ :: _ =>
          ScraperLogic.searchTopic env topic_ w
          = (Ok (SearchResult.mk query results
                   (Date_now env (length (trace w1)))), w1)
          /\ 1 <= Z.of_nat (length results) <= 10
      end
  | None =>
      exists message,
        ScraperLogic.searchTopic env topic_ w
        = (Throw (ThrownBoom (Boom.badGateway message)), w1)
  end
  /\ (forall e,
        fst (ScraperLogic.searchTopic env topic_ w) = Throw e ->
        exists b, e = ThrownBoom b
                  /\ (Boom.statusCode b = 404 \/ Boom.statusCode b = 502)).
Proof.
  intros Hlen query searchUrl w1. subst query.
  assert (Htruthy : truthy topic_ = true).
  { destruct topic_; [| reflexivity]. rewrite trim_nil in Hlen.
    unfold len in Hlen. simpl in Hlen. lia. }
  assert (Hmain :
    match fetched_page env searchUrl (length (trace w)) with
    | Some html =>
        let results :=
          firstn 10 (usable_results env searchUrl
                       (Cheerio.result_blocks (cheerio_load env html))) in
        match results with
        | [] =>
            ScraperLogic.searchTopic env topic_ w
            = (Throw (ThrownBoom (Boom.notFound
                 (lit "No search results found for the given topic"))), w1)
        | _ :: _ =>
            ScraperLogic.searchTopic env topic_ w
            = (Ok (SearchResult.mk (trim topic_) results
                     (Date_now env (length (trace w1)))), w1)
            /\ 1 <= Z.of_nat (length results) <= 10
        end
    | None =>
        exists message,
          ScraperLogic.searchTopic env topic_ w
          = (Throw (ThrownBoom (Boom.badGateway message)), w1)
    end).
  { unfold ScraperLogic.searchTopic, fetched_page.
    rewrite Htruthy. cbn [negb].
    destruct (len (trim topic_) <? 2) eqn:E2; [lia |].
    destruct (len (trim topic_) >? 500) eqn:E5; [lia |].
    fold searchUrl. run.
    destruct (net_fetch env searchUrl (length (trace w))) as [response | f].
    - destruct (Response.ok response); cbn [negb].
      + destruct (Response.text response) as [html | f].
        * rewrite each_collects_first_ten by (simpl; lia).
          cbn [app].
          pose proof (firstn_10_bound
                        (usable_results env searchUrl
                           (Cheerio.result_blocks (cheerio_load env html)))) as Hb.
          destruct (firstn 10 (usable_results env searchUrl
                      (Cheerio.result_blocks (cheerio_load env html))))
            as [| r rs] eqn:Er.
          -- reflexivity.
          -- cbn zeta. split.
             ++ replace (Z.of_nat (length (r :: rs)) =? 0) with false
                  by (symmetry; apply Z.eqb_neq; simpl; lia).
                reflexivity.
             ++ simpl length in *. lia.
        * destruct f; eexists; reflexivity.
      + eexists; reflexivity.
    - destruct f; eexists; reflexivity. }
  split; [exact Hmain |].
  intros e He.
  destruct (fetched_page env searchUrl (length (trace w))) as [html |].
  - cbv zeta in Hmain.
    destruct (firstn 10 (usable_results env searchUrl
                (Cheerio.result_blocks (cheerio_load env html)))).
    + rewrite Hmain in He. inversion He. eexists; split; [reflexivity |].
      left; reflexivity.
    + destruct Hmain as [Hm _]. rewrite Hm in He. discriminate.
  - destruct Hmain as [m Hm]. rewrite Hm in He. inversion He.
    eexists; split; [reflexivity |]. right; reflexivity.
Qed.

Lemma searchTopic_outcomes_witness :
  exists r w',
    ScraperLogic.searchTopic Scenario.env_search (lit " ab ")
      Scenario.empty_world = (Ok r, w')
    /\ SearchResult.query r = lit "ab"
    /\ length (SearchResult.results r) = 10%nat.
Proof.
  pose proof (proj1 (searchTopic_outcomes Scenario.env_search (lit " ab ")
                       Scenario.empty_world
                       ltac:(vm_compute; split; discriminate))) as H.
  vm_compute in H. destruct H as [H _].
  eexists. eexists. split; [vm_compute; exact H | split; reflexivity].
Defined.

(** ** Generation *)

Lemma mapM_request (env : Env) (sourceType : SourceType) (context : jsstring)
    (configs : list PlatformConfig.t) (w : World) :
  PostsLogic.mapM (PostsLogic.request env sourceType context) configs w
  = (Ok (map promise_of
           (answers env sourceType context (length (trace w)) configs)),
     mkWorld (collection w)
       (trace w ++ map (completion_request sourceType context) configs)).
Proof.
  revert w. induction configs as [| config rest IH]; intros w.
  - simpl. unfold ret. rewrite app_nil_r. now destruct w.
  - cbn [PostsLogic.mapM answers map].
    unfold bind at 1. unfold PostsLogic.request at 1. run.
    rewrite IH. cbn [collection trace].
    rewrite length_app, Nat.add_1_r, <- app_assoc. reflexivity.
Qed.

Lemma generatePosts_unfold (env : Env) (source : jsstring)
    (sourceType : SourceType) (scrapedData : option ScrapedData) (w : World) :
  PostsLogic.generatePosts env source sourceType scrapedData w
  = if truthy (or_else (OPENAI_API_KEY env) []) then
      let context := PostsLogic.build_context source sourceType scrapedData in
      (PostsLogic.Promise_all
         (map promise_of
            (answers env sourceType context (length (trace w))
               PostsLogic.PLATFORM_CONFIGS)),
       mkWorld (collection w)
         (trace w ++ map (completion_request sourceType context)
                       PostsLogic.PLATFORM_CONFIGS))
    else
      (Throw (ThrownBoom (Boom.internal
         (lit "OpenAI API key is not configured"))), w).
Proof.
  unfold PostsLogic.generatePosts.
  destruct (truthy (or_else (OPENAI_API_KEY env) [])); cbn [negb];
    [| reflexivity].
  unfold bind. rewrite mapM_request. reflexivity.
Qed.

Lemma generatePosts_quiet env source sourceType scrapedData :
  Inv quiet (PostsLogic.generatePosts env source sourceType scrapedData).
Proof.
  intros w o w' H. rewrite generatePosts_unfold in H.
  destruct (truthy (or_else (OPENAI_API_KEY env) [])).
  - inversion H; subst. split; [reflexivity |].
    eexists; split; reflexivity.
  - inversion H; subst. apply quiet_refl.
Qed.

Lemma first_rejection_None (l : list (PlatformConfig.t * Completion.t)) :
  PostsLogic.first_rejection (map promise_of l) = None ->
  Forall2 (fun a v => PostsLogic.settle (fst a) (snd a) = Ok v) l
    (PostsLogic.fulfilled (map promise_of l)).
Proof.
  induction l as [| a r IH]; intros H; [constructor |].
  cbn [map PostsLogic.first_rejection PostsLogic.fulfilled] in *.
  unfold promise_of at 1 in H. unfold promise_of at 1.
  destruct (PostsLogic.settle (fst a) (snd a)) as [v | e] eqn:E.
  - constructor; [exact E | now apply IH].
  - destruct (PostsLogic.first_rejection (map promise_of r)) as [[t' e'] |];
      [destruct (t' <? Completion.settledAt (snd a))%nat |]; discriminate.
Qed.

Lemma settle_Throw (config : PlatformConfig.t) (c : Completion.t) (e : Thrown) :
  PostsLogic.settle config c = Throw e ->
  raised c /\ e = generation_failure config.
Proof.
  unfold PostsLogic.settle, raised.
  destruct (Completion.result c) as [raw | f]; intros H; inversion H.
  split; [now exists f | reflexivity].
Qed.

Lemma first_rejection_Some (l : list (PlatformConfig.t * Completion.t))
    (t : nat) (e : Thrown) :
  PostsLogic.first_rejection (map promise_of l) = Some (t, e) ->
  exists a, In a l /\ raised (snd a) /\ e = generation_failure (fst a).
Proof.
  induction l as [| a r IH]; intros H; [discriminate |].
  cbn [map PostsLogic.first_rejection] in H. unfold promise_of at 1 in H.
  destruct (PostsLogic.settle (fst a) (snd a)) as [v | e0] eqn:E.
  - destruct (IH H) as (a' & Hin & Hr). exists a'. split; [now right | exact Hr].
  - apply settle_Throw in E.
    destruct (PostsLogic.first_rejection (map promise_of r)) as [[t' e'] |].
    + destruct (t' <? Completion.settledAt (snd a))%nat.
      * destruct (IH H) as (a' & Hin & Hr).
        exists a'. split; [now right | exact Hr].
      * inversion H; subst. exists a. split; [now left | exact E].
    + inversion H; subst. exists a. split; [now left | exact E].
Qed.

Lemma first_rejection_raised (l : list (PlatformConfig.t * Completion.t)) :
  Exists (fun a => raised (snd a)) l ->
  PostsLogic.first_rejection (map promise_of l) <> None.
Proof.
  induction 1 as [a r [f Hf] | a r _ IH];
    cbn [map PostsLogic.first_rejection]; unfold promise_of at 1.
  - unfold PostsLogic.settle. rewrite Hf.
    destruct (PostsLogic.first_rejection (map promise_of r)) as [[t' e'] |];
      [destruct (t' <? Completion.settledAt (snd a))%nat |]; discriminate.
  - destruct (PostsLogic.settle (fst a) (snd a)); [exact IH |].
    destruct (PostsLogic.first_rejection (map promise_of r)) as [[t' e'] |];
      [destruct (t' <? Completion.settledAt (snd a))%nat | ]; discriminate.
Qed.

Lemma fit_fitted (config : PlatformConfig.t) (c : Completion.t)
    (raw : option jsstring) :
  3 <= PlatformConfig.maxLength config ->
  Completion.result c = Resolved raw ->
  fitted (config, c) (PostsLogic.fit config (PostsLogic.completion_content raw)).
Proof.
  intros Hmax Hraw. exists raw. split; [exact Hraw |].
  cbn [fst snd]. cbv zeta.
  set (text := PostsLogic.completion_content raw).
  set (max := PlatformConfig.maxLength config) in *.
  pose proof (len_nonneg text) as Hpos.
  unfold PostsLogic.fit. fold max.
  destruct (len text >? max) eqn:E; cbn [Variant.platform Variant.content].
  - assert (Hgt : len text > max) by lia.
    assert (Hsub : len (substring text 0 (max - 3)) = max - 3)
      by (apply len_substring_prefix; lia).
    assert (Hdots : len (lit "...") = 3) by reflexivity.
    rewrite len_app, Hsub, Hdots.
    repeat split; try lia.
  - assert (Hle : len text <= max) by lia.
    repeat split; try lia.
Qed.

Lemma PLATFORM_CONFIGS_maxLength :
  Forall (fun config => 3 <= PlatformConfig.maxLength config)
    PostsLogic.PLATFORM_CONFIGS.
Proof. repeat constructor; cbn; lia. Qed.

Lemma answers_configs env sourceType context k configs :
  map fst (answers env sourceType context k configs) = configs.
Proof.
  revert k. induction configs as [| c r IH]; intros k; simpl;
    [reflexivity | now rewrite IH].
Qed.

Lemma settled_fitted (l : list (PlatformConfig.t * Completion.t))
    (vs : list Variant.t) :
  Forall (fun config => 3 <= PlatformConfig.maxLength config) (map fst l) ->
  Forall2 (fun a v => PostsLogic.settle (fst a) (snd a) = Ok v) l vs ->
  Forall2 fitted l vs.
Proof.
  intros Hmax HF. induction HF as [| [config c] v r vs Hv HF IH];
    constructor.
  - cbn [fst snd] in Hv. unfold PostsLogic.settle in Hv.
    destruct (Completion.result c) as [raw | f] eqn:Er; [| discriminate].
    inversion Hv; subst.
    apply fit_fitted; [now inversion Hmax | exact Er].
  - apply IH. now inversion Hmax.
Qed.

Lemma Promise_all_fitted (l : list (PlatformConfig.t * Completion.t))
    (vs : list Variant.t) :
  Forall (fun config => 3 <= PlatformConfig.maxLength config) (map fst l) ->
  PostsLogic.Promise_all (map promise_of l) = Ok vs ->
  Forall2 fitted l vs.
Proof.
  intros Hmax H. unfold PostsLogic.Promise_all in H.
  destruct (PostsLogic.first_rejection (map promise_of l)) as [[t e] |] eqn:E;
    [discriminate |].
  inversion H; subst. apply first_rejection_None in E.
  now apply settled_fitted.
Qed.

Lemma fitted_platforms (l : list (PlatformConfig.t * Completion.t))
    (vs : list Variant.t) :
  Forall2 fitted l vs ->
  map Variant.platform vs = map PlatformConfig.platform (map fst l).
Proof.
  induction 1 as [| a v l vs (raw & _ & Hp & _) _ IH]; [reflexivity |].
  simpl. now rewrite Hp, IH.
Qed.

Lemma generatePosts_platforms
    (env : Env) (source : jsstring) (sourceType : SourceType)
    (scrapedData : option ScrapedData) (w w' : World) (vs : list Variant.t) :
  PostsLogic.generatePosts env source sourceType scrapedData w = (Ok vs, w') ->
  map Variant.platform vs
  = map PlatformConfig.platform PostsLogic.PLATFORM_CONFIGS.
Proof.
  intros H. rewrite generatePosts_unfold in H.
  destruct (truthy (or_else (OPENAI_API_KEY env) [])); [| discriminate].
  cbv zeta in H. inversion H as [[Hp Hw]].
  pose proof (Promise_all_fitted
                (answers env sourceType
                   (PostsLogic.build_context source sourceType scrapedData)
                   (length (trace w)) PostsLogic.PLATFORM_CONFIGS) vs) as Hf.
  rewrite answers_configs in Hf.
  specialize (Hf PLATFORM_CONFIGS_maxLength Hp).
  rewrite (fitted_platforms _ _ Hf), answers_configs. reflexivity.
Qed.

(** C4. Every variant that [generatePosts] returns answers one platform of
    [PLATFORM_CONFIGS], in order, and its content is at most [maxLength]
    long: the text of the completion when that fits, otherwise its first
    [maxLength - 3] characters followed by the three characters of the
    ellipsis. Exactly one completion request per platform has been issued:
    nothing is generated again. *)
Theorem generatePosts_variants_fit
    (env : Env) (source : jsstring) (sourceType : SourceType)
    (scrapedData : option ScrapedData) (w w' : World) (vs : list Variant.t) :
  PostsLogic.generatePosts env source sourceType scrapedData w = (Ok vs, w') ->
  let context := PostsLogic.build_context source sourceType scrapedData in
  Forall2
    (fun (a : PlatformConfig.t * Completion.t) (v : Variant.t) =>
       let config := fst a in
       let max := PlatformConfig.maxLength config in
       exists raw,
         Completion.result (snd a) = Resolved raw
         /\ let text := PostsLogic.completion_content raw in
            Variant.platform v = PlatformConfig.platform config
            /\ len (Variant.content v) <= max
            /\ (len text <= max -> Variant.content v = text)
            /\ (len text > max ->
                Variant.content v = substring text 0 (max - 3) ++ lit "..."
                /\ len (substring text 0 (max - 3)) = max - 3
                /\ len (lit "...") = 3
                /\ len (Variant.content v) = max))
    (answers env sourceType context (length (trace w))
       PostsLogic.PLATFORM_CONFIGS) vs
  /\ w' = mkWorld (collection w)
            (trace w ++ map (completion_request sourceType context)
                          PostsLogic.PLATFORM_CONFIGS).
Proof.
  intros H context. rewrite generatePosts_unfold in H.
  destruct (truthy (or_else (OPENAI_API_KEY env) [])); [| discriminate].
  cbv zeta in H. fold context in H. inversion H as [[Hp Hw]]. split.
  - change (Forall2 fitted
              (answers env sourceType context (length (trace w))
                 PostsLogic.PLATFORM_CONFIGS) vs).
    apply Promise_all_fitted; [| exact Hp].
    rewrite answers_configs. apply PLATFORM_CONFIGS_maxLength.
  - reflexivity.
Qed.

Lemma generatePosts_variants_fit_witness :
  Forall2 fitted
    (answers Scenario.env_long_answer url
       (PostsLogic.build_context Scenario.example_url url None) 0
       PostsLogic.PLATFORM_CONFIGS)
    Scenario.fitted_variants.
Proof.
  refine (proj1 (generatePosts_variants_fit Scenario.env_long_answer
            Scenario.example_url url None Scenario.empty_world
            (mkWorld []
               (map (completion_request url
                       (PostsLogic.build_context Scenario.example_url url None))
                  PostsLogic.PLATFORM_CONFIGS))
            Scenario.fitted_variants _)).
  vm_compute. reflexivity.
Defined.

(** ** Persistence *)

Lemma stamp_each_platforms (clock : nat -> Z) (i : nat) (l : list Variant.t) :
  map GeneratedPost.platform (PostsDal.stamp_each clock i l)
  = map Variant.platform l.
Proof.
  revert i. induction l as [| v r IH]; intros i; simpl;
    [reflexivity | now rewrite IH].
Qed.

Lemma stamp_each_stamped (clock : nat -> Z) (i : nat) (l : list Variant.t) :
  stamped l (PostsDal.stamp_each clock i l).
Proof.
  revert i. induction l as [| v r IH]; intros i; simpl; constructor;
    [now split | apply IH].
Qed.

Lemma PostsDal_create_cases (env : Env) (data : CreatePostData.t)
    (w w' : World) (o : Outcome Post.t) :
  PostsDal.create env data w = (o, w') ->
  match o with
  | Ok post =>
      collection w' = collection w ++ [post]
      /\ map GeneratedPost.platform (Post.generatedPosts post)
         = map Variant.platform (CreatePostData.generatedPosts data)
  | Throw _ => collection w' = collection w
  end.
Proof.
  unfold PostsDal.create, PostsDal.insertOne. run.
  cbn [Post.source Post._id collection trace].
  destruct (truthy (CreatePostData.source data)
            && PostsDal.valid_variants (CreatePostData.generatedPosts data));
    cbn [negb].
  - match goal with
    | |- context [existsb ?f ?l] => destruct (existsb f l)
    end; intros H; inversion H; subst.
    + reflexivity.
    + cbn [collection Post.generatedPosts]. split; [reflexivity |].
      apply stamp_each_platforms.
  - intros H; inversion H; subst. reflexivity.
Qed.

(** A post is created whole or not at all: either [create] returns the post
    it has appended to the collection, with one variant per platform of
    [PLATFORM_CONFIGS], or it throws and the collection is as it was. *)
Lemma create_all_or_nothing (env : Env) (input : CreatePostInput.t)
    (w w' : World) (o : Outcome Post.t) :
  PostsLogic.create env input w = (o, w') ->
  match o with
  | Ok post =>
      collection w' = collection w ++ [post]
      /\ map GeneratedPost.platform (Post.generatedPosts post)
         = map PlatformConfig.platform PostsLogic.PLATFORM_CONFIGS
  | Throw _ => collection w' = collection w
  end.
Proof.
  intros H.
  destruct (blank (CreatePostInput.source input)) eqn:Hb.
  { unfold PostsLogic.create in H. unfold blank in Hb. rewrite Hb in H.
    inversion H; subst. reflexivity. }
  assert (Hcases :
    (CreatePostInput.sourceType input = url
     /\ URL_parse env (CreatePostInput.source input) = None)
    \/ (CreatePostInput.sourceType input = url ->
        URL_parse env (CreatePostInput.source input) <> None)).
  { destruct (CreatePostInput.sourceType input);
      [| right; discriminate].
    destruct (URL_parse env (CreatePostInput.source input));
      [right; discriminate | left; now split]. }
  destruct Hcases as [[Hty Hnone] | Hurl].
  { unfold PostsLogic.create in H. unfold blank in Hb.
    rewrite Hb, Hty, Hnone in H. inversion H; subst. reflexivity. }
  rewrite create_unfold in H by assumption.
  destruct (PostsLogic.scrape_or_search env (CreatePostInput.source input)
              (CreatePostInput.sourceType input) w) as [[sd | e] w1] eqn:Hs;
    pose proof (scrape_or_search_keeps _ _ _ _ _ _ Hs) as Hk1;
    unfold keeps in Hk1.
  2: { inversion H; subst. exact Hk1. }
  unfold bind in H.
  destruct (PostsLogic.generatePosts env (CreatePostInput.source input)
              (CreatePostInput.sourceType input) (Some sd) w1)
    as [[vs | e] w2] eqn:Hg;
    pose proof (proj1 (generatePosts_quiet _ _ _ _ _ _ _ Hg)) as Hk2.
  2: { inversion H; subst. congruence. }
  apply PostsDal_create_cases in H.
  destruct o as [post | e].
  - destruct H as [Hc Hp]. split; [congruence |].
    rewrite Hp. cbn [CreatePostData.generatedPosts].
    exact (generatePosts_platforms _ _ _ _ _ _ _ Hg).
  - congruence.
Qed.

(** C8. When [create] has reached generation (the input is valid, the
    extraction returned and the key is configured) and the completion call
    of some platform raises, [create] throws the internal error 'Failed to
    generate post for <platform>' that names a platform whose call raised,
    and the collection is as it was before [create]: no post is persisted.
    (Whatever happens, [create_all_or_nothing] holds: a post is stored with
    one variant per platform, or nothing is stored.) *)
Theorem create_generation_failure
    (env : Env) (input : CreatePostInput.t) (w w1 : World) (sd : ScrapedData) :
  let source := CreatePostInput.source input in
  let sourceType := CreatePostInput.sourceType input in
  let context := PostsLogic.build_context source sourceType (Some sd) in
  let calls :=
    answers env sourceType context (length (trace w1))
      PostsLogic.PLATFORM_CONFIGS in
  blank source = false ->
  (sourceType = url -> URL_parse env source <> None) ->
  PostsLogic.scrape_or_search env source sourceType w = (Ok sd, w1) ->
  truthy (or_else (OPENAI_API_KEY env) []) = true ->
  Exists (fun a => raised (snd a)) calls ->
  exists a,
    In a calls /\ raised (snd a)
    /\ PostsLogic.create env input w
       = (Throw (ThrownBoom (Boom.internal
            (lit "Failed to generate post for "
               ++ platform_name (PlatformConfig.platform (fst a))))),
          mkWorld (collection w)
            (trace w1 ++ map (completion_request sourceType context)
                           PostsLogic.PLATFORM_CONFIGS)).
Proof.
  intros source sourceType context calls Hsrc Hurl Hs Hkey Hraised.
  pose proof (scrape_or_search_keeps _ _ _ _ _ _ Hs) as Hk. unfold keeps in Hk.
  rewrite create_unfold by assumption.
  fold source sourceType. rewrite Hs. unfold bind.
  rewrite generatePosts_unfold, Hkey. cbv zeta. fold context calls.
  unfold PostsLogic.Promise_all.
  destruct (PostsLogic.first_rejection (map promise_of calls))
    as [[t e] |] eqn:E.
  - destruct (first_rejection_Some _ _ _ E) as (a & Hin & Hr & ->).
    exists a. rewrite Hk. repeat split; assumption.
  - exfalso. now apply (first_rejection_raised calls).
Qed.

Lemma create_generation_failure_witness :
  let input := CreatePostInput.mk Scenario.example_url url None in
  exists a : PlatformConfig.t * Completion.t,
    PlatformConfig.platform (fst a) = linkedin
    /\ thrown (fst (PostsLogic.create Scenario.env_linkedin_fails input
                      Scenario.empty_world))
       = Some (ThrownBoom (Boom.internal
                 (lit "Failed to generate post for "
                    ++ platform_name (PlatformConfig.platform (fst a)))))
    /\ collection (snd (PostsLogic.create Scenario.env_linkedin_fails input
                          Scenario.empty_world)) = [].
Proof.
  intros input.
  destruct (create_generation_failure Scenario.env_linkedin_fails input
              Scenario.empty_world
              (mkWorld [] [EvFetch Scenario.example_url])
              (Scraped (ScrapeResult.mk Scenario.example_url
                          (lit "Example Domain") []
                          (lit "An article about formal verification.") 1001)))
    as (a & Hin & Hr & Hc).
  - reflexivity.
  - intros _. discriminate.
  - vm_compute. reflexivity.
  - reflexivity.
  - apply Exists_cons_tl, Exists_cons_hd.
    eexists. vm_compute. reflexivity.
  - exists a. rewrite Hc. cbn [fst snd thrown collection].
    repeat split.
    destruct Hr as [f Hf]. cbn in Hin.
    destruct Hin as [<- | [<- | [<- | [<- | []]]]];
      try reflexivity; vm_compute in Hf; discriminate.
Defined.

(** ** The store *)

Lemma replace_first_present (id : jsstring) (f : Post.t -> Post.t)
    (l : list Post.t) (p : Post.t) :
  find (PostsDal.has_id id) l = Some p ->
  PostsDal.replace_first id f l
  = (Some (f p), snd (PostsDal.replace_first id (fun _ => f p) l)).
Proof.
  induction l as [| q r IH]; simpl; [discriminate |].
  destruct (PostsDal.has_id id q).
  - intros H; inversion H; subst. reflexivity.
  - intros H. rewrite (IH H).
    destruct (PostsDal.replace_first id (fun _ => f p) r). reflexivity.
Qed.

Lemma find_replace_first (id : jsstring) (q : Post.t) (l : list Post.t)
    (p : Post.t) :
  find (PostsDal.has_id id) l = Some p ->
  PostsDal.has_id id q = true ->
  find (PostsDal.has_id id)
    (snd (PostsDal.replace_first id (fun _ => q) l)) = Some q.
Proof.
  intros Hp Hq. induction l as [| x r IH]; simpl in *; [discriminate |].
  destruct (PostsDal.has_id id x) eqn:E.
  - simpl. now rewrite Hq.
  - destruct (PostsDal.replace_first id (fun _ => q) r) eqn:Er.
    simpl in *. rewrite E. now apply IH.
Qed.

Lemma find_has_id (id : jsstring) (l : list Post.t) (p : Post.t) :
  find (PostsDal.has_id id) l = Some p -> PostsDal.has_id id p = true.
Proof. intros H. now apply find_some in H. Qed.

(** C7, as stated, fails on its last clause: the id made of one space is
    absent from the collection, yet [regenerate] answers it with the bad
    request (400) of its guard and not with not found (404). *)
Lemma regenerate_blank_absent_id_is_not_NotFound :
  find (PostsDal.has_id (lit " ")) (collection Scenario.stored_world) = None
  /\ PostsLogic.regenerate Scenario.env_article (lit " ") Scenario.stored_world
     = (Throw (ThrownBoom (Boom.badRequest (lit "Post ID is required"))),
        Scenario.stored_world)
  /\ Boom.statusCode (Boom.badRequest (lit "Post ID is required")) <> 404.
Proof. repeat split; try (vm_compute; reflexivity). cbn. lia. Qed.

(** C7, amended. A blank id makes [regenerate] throw the bad request (400)
    of its guard. For an id that is not blank:
    - when no post has this id, [regenerate] throws not found (404) after
      the lookup;
    - when [p] is the post with this id, [regenerate] fetches nothing (the
      extraction is not repeated); when it returns, the post returned has
      the [_id], [source], [sourceType], [scrapedData] and [createdAt] of
      [p], its [generatedPosts] are the newly generated variants, in order,
      each with a creation time of its own, its [updatedAt] is the time of
      the update, and it is what the collection now holds at this id, in
      the place of [p]; when it throws, the collection is as it was. *)
Theorem regenerate_replaces_variants_only (env : Env) (id : jsstring) (w : World) :
  let w1 := mkWorld (collection w) (trace w ++ [EvFindOne id]) in
  if blank id then
    PostsLogic.regenerate env id w
    = (Throw (ThrownBoom (Boom.badRequest (lit "Post ID is required"))), w)
  else
  match find (PostsDal.has_id id) (collection w) with
  | None =>
      PostsLogic.regenerate env id w
      = (Throw (ThrownBoom (Boom.notFound (lit "Post not found"))), w1)
  | Some p =>
      let (o, w') := PostsLogic.regenerate env id w in
      (exists evs, trace w' = trace w ++ evs
                   /\ forallb (fun e => negb (is_fetch e)) evs = true)
      /\ match o with
         | Ok q =>
             exists vs w2,
               PostsLogic.generatePosts env (Post.source p) (Post.sourceType p)
                 (Post.scrapedData p) w1 = (Ok vs, w2)
               /\ Post._id q = Post._id p
               /\ Post.source q = Post.source p
               /\ Post.sourceType q = Post.sourceType p
               /\ Post.scrapedData q = Post.scrapedData p
               /\ Post.createdAt q = Post.createdAt p
               /\ stamped vs (Post.generatedPosts q)
               /\ Post.generatedPosts q
                  = PostsDal.stamp_each
                      (createdAt_default env (length (trace w2))) 0 vs
               /\ Post.updatedAt q = Date_now env (length (trace w2))
               /\ collection w'
                  = snd (PostsDal.replace_first id (fun _ => q) (collection w))
               /\ find (PostsDal.has_id id) (collection w') = Some q
         | Throw _ => collection w' = collection w
         end
  end.
Proof.
  intros w1. subst w1. unfold PostsLogic.regenerate, blank.
  destruct (negb (truthy id) || (len (trim id) =? 0)); [reflexivity |].
  unfold bind at 1. unfold PostsDal.getById, PostsDal.findOne. run.
  cbn [collection trace].
  set (w1 := mkWorld (collection w) (trace w ++ [EvFindOne id])).
  destruct (find (PostsDal.has_id id) (collection w)) as [p |] eqn:Hfind;
    [| reflexivity].
  destruct (PostsLogic.generatePosts env (Post.source p) (Post.sourceType p)
              (Post.scrapedData p) w1) as [[vs | e] w2] eqn:Hg.
  - destruct (generatePosts_quiet _ _ _ _ _ _ _ Hg) as [Hc2 (evs & Ht2 & Hq2)].
    subst w1. cbn [collection trace] in Hc2, Ht2.
    unfold PostsDal.update, PostsDal.findOneAndUpdate. run.
    cbn [UpdatePostData.generatedPosts].
    destruct (PostsDal.valid_variants vs); cbn [negb].
    + cbn [collection trace]. rewrite Hc2.
      rewrite (replace_first_present _ _ _ _ Hfind).
      set (q := PostsDal.set_ (Date_now env (length (trace w2)))
                  (createdAt_default env (length (trace w2)))
                  (UpdatePostData.mk (Some vs)) p).
      assert (Hq : PostsDal.has_id id q = true).
      { unfold PostsDal.has_id, q. cbn [PostsDal.set_ Post._id].
        exact (find_has_id _ _ _ Hfind). }
      split.
      * exists ([EvFindOne id] ++ evs ++ [EvFindOneAndUpdate id]).
        cbn [trace]. rewrite Ht2.
        split; [now rewrite <- !app_assoc |].
        simpl. rewrite forallb_app, Hq2. reflexivity.
      * exists vs, w2. split; [reflexivity |].
        do 5 (split; [reflexivity |]).
        split; [apply stamp_each_stamped |].
        do 2 (split; [reflexivity |]). cbn [collection].
        split; [reflexivity |].
        now apply (find_replace_first _ _ _ p).
    + split; [| exact Hc2].
      exists ([EvFindOne id] ++ evs). rewrite Ht2.
      split; [now rewrite <- !app_assoc |]. simpl. exact Hq2.
  - destruct (generatePosts_quiet _ _ _ _ _ _ _ Hg) as [Hc2 (evs & Ht2 & Hq2)].
    subst w1. cbn [collection trace] in Hc2, Ht2.
    split; [| exact Hc2].
    exists ([EvFindOne id] ++ evs). rewrite Ht2.
    split; [now rewrite <- !app_assoc |]. simpl. exact Hq2.
Qed.

Lemma regenerate_replaces_variants_only_witness :
  exists q w',
    PostsLogic.regenerate Scenario.env_article (lit "p2") Scenario.stored_world
    = (Ok q, w')
    /\ Post.source q = Scenario.example_url
    /\ Post.updatedAt q = 1005
    /\ map GeneratedPost.platform (Post.generatedPosts q)
       = [twitter; linkedin; facebook; instagram]
    /\ map GeneratedPost.createdAt (Post.generatedPosts q)
       = [550; 551; 552; 553]
    /\ find (PostsDal.has_id (lit "p2")) (collection w') = Some q.
Proof.
  pose proof (regenerate_replaces_variants_only Scenario.env_article (lit "p2")
                Scenario.stored_world) as H.
  cbv zeta in H.
  change (blank (lit "p2")) with false in H.
  change (find (PostsDal.has_id (lit "p2")) (collection Scenario.stored_world))
    with (Some (Scenario.old_post "p2" 30)) in H.
  cbv iota in H.
  destruct (PostsLogic.regenerate Scenario.env_article (lit "p2")
              Scenario.stored_world) as [[q | e] w'] eqn:E.
  - destruct H as (_ & vs & w2 & Hg & _ & Hs & _ & _ & _ & _ & Hgs & Hu & _ & Hf).
    exists q, w'. split; [reflexivity |].
    vm_compute in Hg. inversion Hg; subst vs w2.
    rewrite Hf, Hs, Hu, Hgs. repeat split.
  - vm_compute in E. discriminate.
Defined.

(** ** Listing *)

Lemma insert_desc_perm (p : Post.t) (l : list Post.t) :
  Permutation (p :: l) (PostsDal.insert_desc p l).
Proof.
  induction l as [| q r IH]; simpl; [reflexivity |].
  destruct (Post.createdAt q >? Post.createdAt p); [| reflexivity].
  rewrite perm_swap. now constructor.
Qed.

Lemma insert_desc_sorted (p : Post.t) (l : list Post.t) :
  StronglySorted newer_first l ->
  StronglySorted newer_first (PostsDal.insert_desc p l).
Proof.
  induction 1 as [| q r Hs IH Hq]; simpl.
  - repeat constructor.
  - destruct (Post.createdAt q >? Post.createdAt p) eqn:E.
    + constructor; [exact IH |].
      eapply Permutation_Forall; [apply insert_desc_perm |].
      constructor; [unfold newer_first; lia | exact Hq].
    + constructor; [now constructor |].
      constructor; [unfold newer_first; lia |].
      eapply Forall_impl; [| exact Hq].
      unfold newer_first. intros x Hx. lia.
Qed.

Lemma sort_createdAt_desc_perm (l : list Post.t) :
  Permutation l (PostsDal.sort_createdAt_desc l).
Proof.
  induction l as [| p r IH]; simpl; [reflexivity |].
  rewrite <- insert_desc_perm. now constructor.
Qed.

Lemma sort_createdAt_desc_sorted (l : list Post.t) :
  StronglySorted newer_first (PostsDal.sort_createdAt_desc l).
Proof.
  induction l as [| p r IH]; simpl; [constructor | now apply insert_desc_sorted].
Qed.

(** C9. Whatever the collection holds, [list] returns all its posts (a
    permutation of the collection) ordered by [createdAt], the most recently
    created first, and leaves the collection as it is. *)
Theorem list_returns_all_posts_newest_first (w : World) :
  exists posts,
    PostsLogic.list w
    = (Ok posts, mkWorld (collection w) (trace w ++ [EvFind]))
    /\ Permutation (collection w) posts
    /\ StronglySorted
         (fun a b => Post.createdAt a >= Post.createdAt b) posts.
Proof.
  exists (PostsDal.sort_createdAt_desc (collection w)).
  split; [reflexivity | split].
  - apply sort_createdAt_desc_perm.
  - apply sort_createdAt_desc_sorted.
Qed.

(* ================================================================= *)
(** * Further properties *)

(** ** Strings *)

Lemma eqb_eq (s t : jsstring) : eqb s t = true <-> s = t.
Proof.
  revert t. induction s as [| c s IH]; intros [| d t]; simpl;
    try (split; [discriminate | discriminate]); [now split |].
  rewrite andb_true_iff, N.eqb_eq, IH. split.
  - intros [-> ->]. reflexivity.
  - intros H. inversion H. now split.
Qed.

Lemma eqb_refl (s : jsstring) : eqb s s = true.
Proof. now apply eqb_eq. Qed.

Lemma trimStart_suffix (s : jsstring) : exists t, s = t ++ trimStart s.
Proof.
  induction s as [| c r [t IH]]; [now exists [] |]. simpl.
  destruct (is_space c).
  - exists (c :: t). simpl. now rewrite <- IH.
  - now exists [].
Qed.

Lemma trimStart_head (s : jsstring) :
  match trimStart s with [] => True | c :: _ => is_space c = false end.
Proof.
  induction s as [| c r IH]; simpl; [exact I |].
  destruct (is_space c) eqn:E; [exact IH | exact E].
Qed.

Lemma trimStart_fixed (s : jsstring) :
  match s with [] => True | c :: _ => is_space c = false end ->
  trimStart s = s.
Proof. destruct s as [| c r]; simpl; [reflexivity | now intros ->]. Qed.

Lemma trimStart_snoc (l : jsstring) (c : N) :
  is_space c = false -> trimStart (l ++ [c]) = trimStart l ++ [c].
Proof.
  intros Hc. induction l as [| a l IH]; simpl.
  - now rewrite Hc.
  - destruct (is_space a); [exact IH | reflexivity].
Qed.

Lemma trimEnd_cons (c : N) (r : jsstring) :
  is_space c = false -> trimEnd (c :: r) = c :: trimEnd r.
Proof.
  intros Hc. unfold trimEnd. simpl.
  rewrite trimStart_snoc by assumption. rewrite rev_app_distr. reflexivity.
Qed.

Lemma trimEnd_prefix (s : jsstring) : exists t, s = trimEnd s ++ t.
Proof.
  unfold trimEnd. destruct (trimStart_suffix (rev s)) as [t Ht].
  exists (rev t). rewrite <- rev_app_distr, <- Ht. now rewrite rev_involutive.
Qed.

Lemma trim_edges (s : jsstring) : edge_trimmed (trim s).
Proof.
  unfold trim, edge_trimmed. split.
  - pose proof (trimStart_head s) as H.
    destruct (trimStart s) as [| c r]; [exact I |].
    now rewrite trimEnd_cons.
  - unfold trimEnd. rewrite rev_involutive. apply trimStart_head.
Qed.

Lemma edge_trimmed_fixed (s : jsstring) : edge_trimmed s -> trim s = s.
Proof.
  intros [Hh Hl]. unfold trim. rewrite (trimStart_fixed s Hh).
  unfold trimEnd. rewrite (trimStart_fixed (rev s) Hl).
  apply rev_involutive.
Qed.

Lemma trim_idempotent (s : jsstring) : trim (trim s) = trim s.
Proof. apply edge_trimmed_fixed, trim_edges. Qed.

(** What [trim] keeps is a segment of the string. *)
Lemma trim_segment (s : jsstring) : exists a b, s = a ++ trim s ++ b.
Proof.
  destruct (trimStart_suffix s) as [a Ha].
  destruct (trimEnd_prefix (trimStart s)) as [b Hb].
  exists a, b. unfold trim. now rewrite <- Hb.
Qed.

Lemma len_trim_le (s : jsstring) : len (trim s) <= len s.
Proof.
  destruct (trim_segment s) as (a & b & H).
  rewrite H at 2. rewrite !len_app.
  pose proof (len_nonneg a). pose proof (len_nonneg b). lia.
Qed.

Lemma Forall_trim (P : N -> Prop) (s : jsstring) :
  Forall P s -> Forall P (trim s).
Proof.
  destruct (trim_segment s) as (a & b & H). intros HF. rewrite H in HF.
  apply Forall_app in HF. destruct HF as [_ HF].
  apply Forall_app in HF. tauto.
Qed.

Lemma single_spaced_app (a b : jsstring) :
  single_spaced (a ++ b) = true ->
  single_spaced a = true /\ single_spaced b = true.
Proof.
  induction a as [| x a IH]; [now split |].
  cbn [app single_spaced]. intros H. apply andb_true_iff in H.
  destruct H as [Hx Hr]. destruct (IH Hr) as [Ha Hb].
  split; [| exact Hb]. rewrite Ha, andb_true_r.
  destruct a as [| y a]; [reflexivity | exact Hx].
Qed.

Lemma single_spaced_trim (s : jsstring) :
  single_spaced s = true -> single_spaced (trim s) = true.
Proof.
  destruct (trim_segment s) as (a & b & H). intros HS. rewrite H in HS.
  apply single_spaced_app in HS. destruct HS as [_ HS].
  apply single_spaced_app in HS. tauto.
Qed.

(** ** Cleaning the body text *)

Lemma is_space_space : is_space 32 = true.
Proof. reflexivity. Qed.

(** After [replace(/\s+/g, ' ')] the only white space left is the space. *)
Lemma collapse_only_spaces (in_run : bool) (s : jsstring) :
  Forall (fun c => is_space c = true -> c = 32%N)
    (replace_runs is_space (lit " ") in_run s).
Proof.
  revert in_run. induction s as [| c r IH]; intros in_run; simpl;
    [constructor |].
  destruct (is_space c) eqn:E.
  - destruct in_run; [apply IH |]. constructor; [reflexivity | apply IH].
  - constructor; [congruence | apply IH].
Qed.

(** ... and a space is never followed by another one. *)
Lemma collapse_single_spaced (in_run : bool) (s : jsstring) :
  single_spaced (replace_runs is_space (lit " ") in_run s) = true
  /\ (in_run = true ->
      match replace_runs is_space (lit " ") in_run s with
      | [] => True
      | c :: _ => c <> 32%N
      end).
Proof.
  revert in_run. induction s as [| c r IH]; intros in_run;
    [now split |].
  cbn [replace_runs]. destruct (is_space c) eqn:E.
  - destruct in_run.
    + apply IH.
    + destruct (IH true) as [Hs Hh]. split; [| discriminate].
      change (lit " " ++ replace_runs is_space (lit " ") true r)
        with (32%N :: replace_runs is_space (lit " ") true r).
      cbn [single_spaced]. rewrite Hs, andb_true_r.
      specialize (Hh eq_refl).
      destruct (replace_runs is_space (lit " ") true r) as [| d t];
        [reflexivity |].
      apply N.eqb_neq in Hh. now rewrite Hh.
  - destruct (IH false) as [Hs _]. split.
    + cbn [single_spaced]. rewrite Hs, andb_true_r.
      assert (Hc : (c =? 32)%N = false).
      { apply N.eqb_neq. intros ->. now rewrite is_space_space in E. }
      rewrite Hc.
      now destruct (replace_runs is_space (lit " ") false r).
    + intros _ ->. now rewrite is_space_space in E.
Qed.

Lemma replace_runs_nothing (cls : N -> bool) (by_ : jsstring) (s : jsstring) :
  Forall (fun c => cls c = false) s -> replace_runs cls by_ false s = s.
Proof.
  induction 1 as [| c r Hc _ IH]; simpl; [reflexivity |].
  now rewrite Hc, IH.
Qed.

Lemma len_collapse_le (in_run : bool) (s : jsstring) :
  len (replace_runs is_space (lit " ") in_run s) <= len s.
Proof.
  revert in_run. induction s as [| c r IH]; intros in_run; simpl;
    [unfold len; simpl; lia |].
  destruct (is_space c).
  - destruct in_run.
    + specialize (IH true). unfold len in *. simpl. lia.
    + specialize (IH true). unfold len in *. simpl in *. lia.
  - specialize (IH false). unfold len in *. simpl. lia.
Qed.

(** The second replacement of [cleanText] finds nothing to replace: no
    newline survives the first one. *)
Lemma cleanText_collapse (bodyText : jsstring) :
  ScraperLogic.cleanText bodyText
  = trim (replace_runs is_space (lit " ") false bodyText).
Proof.
  unfold ScraperLogic.cleanText. f_equal.
  apply replace_runs_nothing.
  eapply Forall_impl; [| apply collapse_only_spaces].
  intros c Hc. cbv beta in Hc. apply N.eqb_neq. intros <-.
  discriminate (Hc eq_refl).
Qed.

(** X1. The cleaned text holds no white space but single spaces: every white
    space character in it is the space, no space follows another, it neither
    starts nor ends with white space (so it holds no newline at all), and it
    is no longer than the text it comes from. *)
Theorem cleanText_normalised (bodyText : jsstring) :
  let cleanedText := ScraperLogic.cleanText bodyText in
  Forall (fun c => is_space c = true -> c = 32%N) cleanedText
  /\ ~ In 10%N cleanedText
  /\ single_spaced cleanedText = true
  /\ edge_trimmed cleanedText
  /\ len cleanedText <= len bodyText.
Proof.
  intros cleanedText. subst cleanedText. rewrite cleanText_collapse.
  assert (HF : Forall (fun c => is_space c = true -> c = 32%N)
                 (trim (replace_runs is_space (lit " ") false bodyText)))
    by apply Forall_trim, collapse_only_spaces.
  split; [exact HF | split; [| split; [| split]]].
  - intros Hin. rewrite Forall_forall in HF.
    discriminate (HF _ Hin eq_refl).
  - apply single_spaced_trim, collapse_single_spaced.
  - apply trim_edges.
  - etransitivity; [apply len_trim_le | apply len_collapse_le].
Qed.

(** ** [scrapeUrl]: validation, failures, success *)

(** X2. A URL that is empty, that the URL parser rejects, or whose protocol
    is neither [http:] nor [https:] makes [scrapeUrl] throw a bad request
    (400) before any request is issued. For a URL that is not empty the
    message is always 'Invalid URL format': the error about the protocol is
    thrown inside the [try] that guards the parser and is replaced by its
    [catch]. *)
Theorem scrapeUrl_rejects_invalid_url (env : Env) (url_ : jsstring) (w : World) :
  truthy url_ = false
  \/ URL_parse env url_ = None
  \/ (exists u, URL_parse env url_ = Some u
                /\ ScraperLogic.protocol_allowed u = false) ->
  exists message,
    ScraperLogic.scrapeUrl env url_ w
    = (Throw (ThrownBoom (Boom.badRequest message)), w)
    /\ (truthy url_ = true -> message = lit "Invalid URL format").
Proof.
  intros H. unfold ScraperLogic.scrapeUrl.
  destruct (truthy url_) eqn:Et; cbn [negb].
  - destruct H as [H | [H | (u & Hu & Hp)]]; [discriminate | |].
    + exists (lit "Invalid URL format"). run. rewrite H. now split.
    + exists (lit "Invalid URL format"). run. rewrite Hu, Hp. now split.
  - eexists. split; [reflexivity | discriminate].
Qed.

Lemma scrapeUrl_rejects_invalid_url_witness :
  exists message,
    ScraperLogic.scrapeUrl Scenario.env_article (lit "ftp://example.com/file")
      Scenario.empty_world
    = (Throw (ThrownBoom (Boom.badRequest message)), Scenario.empty_world)
    /\ (truthy (lit "ftp://example.com/file") = true ->
        message = lit "Invalid URL format").
Proof.
  apply (scrapeUrl_rejects_invalid_url Scenario.env_article
           (lit "ftp://example.com/file") Scenario.empty_world).
  right. right.
  exists (URL.mk (lit "ftp:") (lit "ftp://example.com/file")).
  split; reflexivity.
Defined.

(** [scrapeUrl] once the page has been read. *)
Lemma scrapeUrl_html_page (env : Env) (url_ : jsstring) (u : URL.t) (w : World)
    (response : Response.t) (html : jsstring) :
  truthy url_ = true ->
  URL_parse env url_ = Some u ->
  ScraperLogic.protocol_allowed u = true ->
  net_fetch env (URL.href u) (length (trace w)) = Resolved response ->
  Response.ok response = true ->
  includes (or_else (Response.content_type response) []) (lit "text/html")
  = true ->
  Response.text response = Resolved html ->
  let doc := cheerio_load env html in
  let content :=
    ScraperLogic.limitContent (ScraperLogic.cleanText (Cheerio.body_text doc)) in
  let w' := mkWorld (collection w) (trace w ++ [EvFetch (URL.href u)]) in
  ScraperLogic.scrapeUrl env url_ w
  = if negb (truthy content) || (len content <? 10) then
      (Throw (ThrownBoom (Boom.badGateway
         (lit "No meaningful content could be extracted from URL"))), w')
    else
      (Ok (ScrapeResult.mk (URL.href u)
             (trim (or_else (Cheerio.og_title doc)
                      (or_else (Cheerio.twitter_title doc)
                         (or_else (Some (Cheerio.title_text doc))
                            (lit "Untitled")))))
             (trim (or_else (Cheerio.og_description doc)
                      (or_else (Cheerio.twitter_description doc)
                         (or_else (Cheerio.meta_description doc) []))))
             content (Date_now env (length (trace w')))), w').
Proof.
  intros Hurl Hparse Hproto Hfetch Hok Hct Htext doc content w'.
  unfold ScraperLogic.scrapeUrl. rewrite Hurl. cbn [negb]. run.
  rewrite Hparse, Hproto. cbn [negb]. run.
  rewrite Hfetch, Hok. cbn [negb]. rewrite Hct. cbn [negb]. rewrite Htext.
  fold doc. fold content.
  destruct (negb (truthy content) || (len content <? 10)); reflexivity.
Qed.

Lemma limitContent_enough (c : jsstring) :
  (negb (truthy (ScraperLogic.limitContent c))
   || (len (ScraperLogic.limitContent c) <? 10)) = (len c <? 10).
Proof.
  destruct (Z_le_gt_dec (len c) 5000) as [H | H].
  - rewrite limitContent_short by assumption.
    destruct c as [| x c]; [reflexivity |]. reflexivity.
  - destruct (limitContent_long c H) as [Heq Hlen]. rewrite Hlen.
    rewrite Heq. destruct (firstn (Z.to_nat 5000) c ++ lit "...") eqn:E.
    + apply (f_equal (@length N)) in E. rewrite length_app in E.
      simpl in E. lia.
    + cbn [truthy negb orb]. symmetry. apply Z.ltb_ge. lia.
Qed.

(** X3. When the page is read but its cleaned text has fewer than 10
    characters, [scrapeUrl] throws the bad gateway (502) 'No meaningful
    content could be extracted from URL'. *)
Theorem scrapeUrl_insufficient_content
    (env : Env) (url_ : jsstring) (u : URL.t) (w : World)
    (response : Response.t) (html : jsstring) :
  truthy url_ = true ->
  URL_parse env url_ = Some u ->
  ScraperLogic.protocol_allowed u = true ->
  net_fetch env (URL.href u) (length (trace w)) = Resolved response ->
  Response.ok response = true ->
  includes (or_else (Response.content_type response) []) (lit "text/html")
  = true ->
  Response.text response = Resolved html ->
  len (ScraperLogic.cleanText (Cheerio.body_text (cheerio_load env html))) < 10 ->
  ScraperLogic.scrapeUrl env url_ w
  = (Throw (ThrownBoom (Boom.badGateway
       (lit "No meaningful content could be extracted from URL"))),
     mkWorld (collection w) (trace w ++ [EvFetch (URL.href u)])).
Proof.
  intros Hurl Hparse Hproto Hfetch Hok Hct Htext Hshort.
  rewrite (scrapeUrl_html_page env url_ u w response html) by assumption.
  cbv zeta. rewrite limitContent_enough.
  apply Z.ltb_lt in Hshort. now rewrite Hshort.
Qed.

(** X4. When the page is read and its cleaned text has at least 10
    characters, [scrapeUrl] returns: the [url] is the parsed URL, the
    [content] the cleaned text limited to its first 5000 characters (with
    the ellipsis when cut), the [title] the first non-empty one of og:title,
    twitter:title, the title element and 'Untitled', the [description] the
    first non-empty one of og:description, twitter:description, the
    description meta tag and the empty string, both trimmed. *)
Theorem scrapeUrl_returns_page
    (env : Env) (url_ : jsstring) (u : URL.t) (w : World)
    (response : Response.t) (html : jsstring) :
  truthy url_ = true ->
  URL_parse env url_ = Some u ->
  ScraperLogic.protocol_allowed u = true ->
  net_fetch env (URL.href u) (length (trace w)) = Resolved response ->
  Response.ok response = true ->
  includes (or_else (Response.content_type response) []) (lit "text/html")
  = true ->
  Response.text response = Resolved html ->
  let doc := cheerio_load env html in
  let cleanedText := ScraperLogic.cleanText (Cheerio.body_text doc) in
  let w' := mkWorld (collection w) (trace w ++ [EvFetch (URL.href u)]) in
  10 <= len cleanedText ->
  exists r,
    ScraperLogic.scrapeUrl env url_ w = (Ok r, w')
    /\ ScrapeResult.url r = URL.href u
    /\ ScrapeResult.content r
       = (if len cleanedText >? 5000
          then firstn (Z.to_nat 5000) cleanedText ++ lit "..."
          else cleanedText)
    /\ ScrapeResult.title r
       = trim (or_else (Cheerio.og_title doc)
                 (or_else (Cheerio.twitter_title doc)
                    (or_else (Some (Cheerio.title_text doc))
                       (lit "Untitled"))))
    /\ ScrapeResult.description r
       = trim (or_else (Cheerio.og_description doc)
                 (or_else (Cheerio.twitter_description doc)
                    (or_else (Cheerio.meta_description doc) [])))
    /\ edge_trimmed (ScrapeResult.title r)
    /\ edge_trimmed (ScrapeResult.description r)
    /\ ScrapeResult.scrapedAt r = Date_now env (length (trace w')).
Proof.
  intros Hurl Hparse Hproto Hfetch Hok Hct Htext doc cleanedText w' Hlong.
  rewrite (scrapeUrl_html_page env url_ u w response html) by assumption.
  cbv zeta. rewrite limitContent_enough. fold doc. fold cleanedText.
  replace (len cleanedText <? 10) with false by (symmetry; apply Z.ltb_ge; lia).
  eexists. split; [reflexivity |].
  cbn [ScrapeResult.url ScrapeResult.content ScrapeResult.title
       ScrapeResult.description ScrapeResult.scrapedAt].
  repeat split; try apply trim_edges.
  unfold ScraperLogic.limitContent.
  destruct (len cleanedText >? 5000) eqn:E; [| reflexivity].
  rewrite substring_prefix by lia. reflexivity.
Qed.

Lemma scrapeUrl_insufficient_content_witness :
  ScraperLogic.scrapeUrl Scenario.env_thin_page Scenario.example_url
    Scenario.empty_world
  = (Throw (ThrownBoom (Boom.badGateway
       (lit "No meaningful content could be extracted from URL"))),
     mkWorld [] [EvFetch Scenario.example_url]).
Proof.
  refine (scrapeUrl_insufficient_content Scenario.env_thin_page
            Scenario.example_url (URL.mk (lit "https:") Scenario.example_url)
            Scenario.empty_world
            (Response.mk 200 (lit "OK") (Some (lit "text/html; charset=utf-8"))
               (Resolved (lit "<html></html>")))
            (lit "<html></html>") _ _ _ _ _ _ _ _);
    try reflexivity.
Defined.

Lemma scrapeUrl_returns_page_witness :
  exists r,
    ScraperLogic.scrapeUrl Scenario.env_article Scenario.example_url
      Scenario.empty_world
    = (Ok r, mkWorld [] [EvFetch Scenario.example_url])
    /\ ScrapeResult.content r = lit "An article about formal verification."
    /\ ScrapeResult.title r = lit "Example Domain".
Proof.
  destruct (scrapeUrl_returns_page Scenario.env_article
              Scenario.example_url (URL.mk (lit "https:") Scenario.example_url)
              Scenario.empty_world
              (Response.mk 200 (lit "OK")
                 (Some (lit "text/html; charset=utf-8"))
                 (Resolved (lit "<html></html>")))
              (lit "<html></html>")
              eq_refl eq_refl eq_refl eq_refl eq_refl eq_refl eq_refl)
    as (r & Hr & _ & Hc & Ht & _).
  - vm_compute. discriminate.
  - exists r. split; [exact Hr |]. rewrite Hc, Ht. split; reflexivity.
Defined.

(** X5. When the fetch is rejected, or the body of a successful HTML
    response cannot be read, [scrapeUrl] throws a bad gateway (502) whose
    message is 'Failed to scrape URL: ' followed by the message of the
    error ('Unknown error' when what was thrown is not an [Error]). *)
Theorem scrapeUrl_network_failure
    (env : Env) (url_ : jsstring) (u : URL.t) (w : World) (f : Failure) :
  truthy url_ = true ->
  URL_parse env url_ = Some u ->
  ScraperLogic.protocol_allowed u = true ->
  net_fetch env (URL.href u) (length (trace w)) = Rejected f
  \/ (exists response,
        net_fetch env (URL.href u) (length (trace w)) = Resolved response
        /\ Response.ok response = true
        /\ includes (or_else (Response.content_type response) [])
             (lit "text/html") = true
        /\ Response.text response = Rejected f) ->
  ScraperLogic.scrapeUrl env url_ w
  = (Throw (ThrownBoom (Boom.badGateway
       (lit "Failed to scrape URL: "
          ++ match f with
             | ErrorWith message => message
             | NonError => lit "Unknown error"
             end))),
     mkWorld (collection w) (trace w ++ [EvFetch (URL.href u)])).
Proof.
  intros Hurl Hparse Hproto H.
  unfold ScraperLogic.scrapeUrl. rewrite Hurl. cbn [negb]. run.
  rewrite Hparse, Hproto. cbn [negb]. run.
  destruct H as [H | (response & Hf & Hok & Hct & Ht)].
  - rewrite H. destruct f; reflexivity.
  - rewrite Hf, Hok. cbn [negb]. rewrite Hct. cbn [negb]. rewrite Ht.
    destruct f; reflexivity.
Qed.

Lemma scrapeUrl_network_failure_witness :
  ScraperLogic.scrapeUrl Scenario.env_offline Scenario.example_url
    Scenario.empty_world
  = (Throw (ThrownBoom (Boom.badGateway
       (lit "Failed to scrape URL: " ++ lit "fetch failed"))),
     mkWorld [] [EvFetch Scenario.example_url]).
Proof.
  refine (scrapeUrl_network_failure Scenario.env_offline
            Scenario.example_url (URL.mk (lit "https:") Scenario.example_url)
            Scenario.empty_world (ErrorWith (lit "fetch failed")) _ _ _ _);
    try reflexivity.
  left. reflexivity.
Defined.

(** X6. Whatever the URL and the network, [scrapeUrl] either returns or
    throws a Boom error whose status is 400 or 502, never anything else; it
    issues no request at all or exactly one fetch, of the parsed URL, and it
    leaves the collection alone. *)
Theorem scrapeUrl_error_classes (env : Env) (url_ : jsstring) (w : World) :
  match ScraperLogic.scrapeUrl env url_ w with
  | (o, w') =>
      match o with
      | Ok _ => True
      | Throw e =>
          exists b, e = ThrownBoom b
                    /\ (Boom.statusCode b = 400 \/ Boom.statusCode b = 502)
      end
      /\ (w' = w
          \/ exists u, URL_parse env url_ = Some u
                       /\ w' = mkWorld (collection w)
                                 (trace w ++ [EvFetch (URL.href u)]))
  end.
Proof.
  unfold ScraperLogic.scrapeUrl.
  destruct (truthy url_); cbn [negb];
    [| split; [eexists; split; [reflexivity | now left] | now left]].
  run.
  destruct (URL_parse env url_) as [u |];
    [| split; [eexists; split; [reflexivity | now left] | now left]].
  destruct (ScraperLogic.protocol_allowed u); cbn [negb];
    [| split; [eexists; split; [reflexivity | now left] | now left]].
  assert (Hw : forall w', w' = mkWorld (collection w)
                                 (trace w ++ [EvFetch (URL.href u)]) ->
               w' = w \/ exists u0, Some u = Some u0
                          /\ w' = mkWorld (collection w)
                                    (trace w ++ [EvFetch (URL.href u0)])).
  { intros w' ->. right. now exists u. }
  destruct (net_fetch env (URL.href u) (length (trace w))) as [response | f].
  2: { destruct f; (split; [eexists; split; [reflexivity | now right]
                           | now apply Hw]). }
  destruct (Response.ok response); cbn [negb].
  2: { split; [eexists; split; [reflexivity | now right] | now apply Hw]. }
  destruct (includes (or_else (Response.content_type response) [])
              (lit "text/html")); cbn [negb].
  2: { split; [eexists; split; [reflexivity | now left] | now apply Hw]. }
  destruct (Response.text response) as [html | f].
  2: { destruct f; (split; [eexists; split; [reflexivity | now right]
                           | now apply Hw]). }
  match goal with
  | |- context [if ?c then _ else _] => destruct c
  end.
  - split; [eexists; split; [reflexivity | now right] | now apply Hw].
  - split; [exact I | now apply Hw].
Qed.

(** ** [searchTopic]: what the results are *)

Lemma searchTopic_returns (env : Env) (topic_ : jsstring) (w w' : World)
    (r : SearchResult.t) :
  ScraperLogic.searchTopic env topic_ w = (Ok r, w') ->
  exists html,
    fetched_page env (search_url env (trim topic_)) (length (trace w))
    = Some html
    /\ SearchResult.query r = trim topic_
    /\ SearchResult.results r
       = ScraperLogic.each env (search_url env (trim topic_))
           (Cheerio.result_blocks (cheerio_load env html)) [].
Proof.
  unfold ScraperLogic.searchTopic, fetched_page.
  destruct (truthy topic_); cbn [negb]; [| discriminate].
  destruct (len (trim topic_) <? 2); [discriminate |].
  destruct (len (trim topic_) >? 500); [discriminate |].
  run.
  destruct (net_fetch env (search_url env (trim topic_)) (length (trace w)))
    as [response | f]; [| destruct f; discriminate].
  destruct (Response.ok response); cbn [negb]; [| discriminate].
  destruct (Response.text response) as [html | f];
    [| destruct f; discriminate].
  match goal with
  | |- context [if ?c then _ else _] => destruct c
  end; [discriminate |].
  intros H. inversion H; subst. exists html. now repeat split.
Qed.

(** What one block contributes: nothing, or one result whose title and
    snippet are the trimmed texts of the block, both non-empty, and whose URL
    is the [uddg] parameter of the link when it has one and the link itself
    otherwise. *)
Lemma visit_result (env : Env) (searchUrl : jsstring) (b : ResultBlock.t)
    (item : SearchResultItem.t) :
  In item (ScraperLogic.visit env searchUrl b []) ->
  exists href uddg,
    ResultBlock.link_href b = Some href
    /\ URL_uddg env href searchUrl = Some uddg
    /\ truthy href = true
    /\ item = SearchResultItem.mk (trim (ResultBlock.link_text b))
                (or_else uddg href) (trim (ResultBlock.snippet_text b))
    /\ truthy (SearchResultItem.title item) = true
    /\ truthy (SearchResultItem.url item) = true
    /\ truthy (SearchResultItem.snippet item) = true.
Proof.
  unfold ScraperLogic.visit.
  destruct (ResultBlock.link_href b) as [href |]; [| intros []].
  destruct (truthy (trim (ResultBlock.link_text b))) eqn:Et; [| intros []].
  destruct (truthy href) eqn:Eh; [| intros []].
  destruct (truthy (trim (ResultBlock.snippet_text b))) eqn:Es; [| intros []].
  cbn [andb].
  destruct (URL_uddg env href searchUrl) as [uddg |] eqn:Eu; [| intros []].
  intros [<- | []]. exists href, uddg.
  cbn [SearchResultItem.title SearchResultItem.url SearchResultItem.snippet].
  assert (Hurl : truthy (or_else uddg href) = true).
  { destruct uddg as [s |]; simpl; [| exact Eh].
    destruct (truthy s) eqn:E; assumption. }
  repeat split; assumption.
Qed.

Lemma In_firstn {A} (n : nat) (l : list A) (x : A) :
  In x (firstn n l) -> In x l.
Proof.
  revert l. induction n as [| n IH]; intros [| a l]; simpl; try tauto.
  intros [-> | H]; [now left | right; now apply IH].
Qed.

(** X7. Every result that [searchTopic] returns comes from a block of the
    page that the search request fetched, a block that has a link, a title
    and a snippet: its title and snippet are the trimmed texts of the block
    and are not empty, its URL is not empty and is the [uddg] parameter of
    the link when there is one, the link itself otherwise. The [query]
    returned is the trimmed topic. *)
Theorem searchTopic_results_are_usable
    (env : Env) (topic_ : jsstring) (w w' : World) (r : SearchResult.t) :
  ScraperLogic.searchTopic env topic_ w = (Ok r, w') ->
  SearchResult.query r = trim topic_
  /\ exists html,
       fetched_page env (search_url env (trim topic_)) (length (trace w))
       = Some html
       /\ Forall
            (fun item =>
               exists b href uddg,
                 In b (Cheerio.result_blocks (cheerio_load env html))
                 /\ ResultBlock.link_href b = Some href
                 /\ URL_uddg env href (search_url env (trim topic_))
                    = Some uddg
                 /\ SearchResultItem.title item
                    = trim (ResultBlock.link_text b)
                 /\ SearchResultItem.snippet item
                    = trim (ResultBlock.snippet_text b)
                 /\ SearchResultItem.url item = or_else uddg href
                 /\ truthy (SearchResultItem.title item) = true
                 /\ truthy (SearchResultItem.url item) = true
                 /\ truthy (SearchResultItem.snippet item) = true)
            (SearchResult.results r).
Proof.
  intros H.
  destruct (searchTopic_returns _ _ _ _ _ H) as (html & Hpage & Hq & Hr).
  split; [exact Hq |]. exists html. split; [exact Hpage |]. rewrite Hr.
  rewrite each_collects_first_ten by (simpl; lia). cbn [app].
  apply Forall_forall. intros item Hin. apply In_firstn in Hin.
  unfold usable_results in Hin. apply in_flat_map in Hin.
  destruct Hin as (b & Hb & Hv).
  destruct (visit_result _ _ _ _ Hv)
    as (href & uddg & Hh & Hu & _ & -> & Ht & Hur & Hs).
  exists b, href, uddg. repeat split; assumption.
Qed.

Lemma searchTopic_results_are_usable_witness :
  exists r w',
    ScraperLogic.searchTopic Scenario.env_search (lit " ab ")
      Scenario.empty_world = (Ok r, w')
    /\ SearchResult.query r = lit "ab"
    /\ Forall (fun item => truthy (SearchResultItem.snippet item) = true)
         (SearchResult.results r).
Proof.
  destruct (ScraperLogic.searchTopic Scenario.env_search (lit " ab ")
              Scenario.empty_world) as [[r | e] w'] eqn:E.
  - exists r, w'. split; [reflexivity |].
    destruct (searchTopic_results_are_usable _ _ _ _ _ E)
      as [Hq (html & _ & HF)].
    split; [exact Hq |].
    eapply Forall_impl; [| exact HF].
    intros item (b & href & uddg & H). tauto.
  - vm_compute in E. discriminate.
Defined.

(** ** [generatePosts]: the key, the fan-out, the context *)

(** X8. Where the module has been imported (its client was built) and the
    key that [generatePosts] reads is missing or empty by the time of the
    call, [generatePosts] throws the internal error (500) 'OpenAI API key is
    not configured' and sends no request. *)
Theorem generatePosts_requires_key
    (env : Env) (source : jsstring) (sourceType : SourceType)
    (scrapedData : option ScrapedData) (w : World) :
  imported env ->
  truthy (or_else (OPENAI_API_KEY env) []) = false ->
  PostsLogic.generatePosts env source sourceType scrapedData w
  = (Throw (ThrownBoom (Boom.internal
       (lit "OpenAI API key is not configured"))), w).
Proof.
  intros _ H. rewrite generatePosts_unfold. now rewrite H.
Qed.

Lemma generatePosts_requires_key_witness :
  PostsLogic.generatePosts Scenario.env_key_removed Scenario.example_url url
    None Scenario.empty_world
  = (Throw (ThrownBoom (Boom.internal
       (lit "OpenAI API key is not configured"))), Scenario.empty_world).
Proof.
  apply (generatePosts_requires_key Scenario.env_key_removed
           Scenario.example_url url None Scenario.empty_world).
  - reflexivity.
  - reflexivity.
Defined.

Lemma first_rejection_resolved (l : list (PlatformConfig.t * Completion.t)) :
  Forall (fun a => exists raw, Completion.result (snd a) = Resolved raw) l ->
  PostsLogic.first_rejection (map promise_of l) = None.
Proof.
  induction 1 as [| a r [raw Hraw] _ IH]; [reflexivity |].
  cbn [map PostsLogic.first_rejection]. unfold promise_of at 1.
  unfold PostsLogic.settle. now rewrite Hraw.
Qed.

Lemma not_raised_resolved (c : Completion.t) :
  ~ raised c -> exists raw, Completion.result c = Resolved raw.
Proof.
  unfold raised. destruct (Completion.result c) as [raw | f]; intros H.
  - now exists raw.
  - exfalso. apply H. now exists f.
Qed.

(** X9. With a key configured, [generatePosts] sends the four requests, one
    per platform in the order of [PLATFORM_CONFIGS], whatever their
    outcomes, and nothing else; it returns exactly when none of the four
    calls raises, and then with one variant per platform. *)
Theorem generatePosts_fan_out
    (env : Env) (source : jsstring) (sourceType : SourceType)
    (scrapedData : option ScrapedData) (w : World) :
  truthy (or_else (OPENAI_API_KEY env) []) = true ->
  let context := PostsLogic.build_context source sourceType scrapedData in
  let calls :=
    answers env sourceType context (length (trace w))
      PostsLogic.PLATFORM_CONFIGS in
  snd (PostsLogic.generatePosts env source sourceType scrapedData w)
  = mkWorld (collection w)
      (trace w ++ map (completion_request sourceType context)
                    PostsLogic.PLATFORM_CONFIGS)
  /\ ((exists vs,
         fst (PostsLogic.generatePosts env source sourceType scrapedData w)
         = Ok vs
         /\ map Variant.platform vs
            = [twitter; linkedin; facebook; instagram])
      <-> Forall (fun a => ~ raised (snd a)) calls).
Proof.
  intros Hkey context calls.
  rewrite generatePosts_unfold, Hkey. cbv zeta. fold context calls.
  cbn [fst snd]. split; [reflexivity |].
  unfold PostsLogic.Promise_all. split.
  - intros (vs & Hvs & _).
    destruct (PostsLogic.first_rejection (map promise_of calls))
      as [[t e] |] eqn:E; [discriminate |].
    apply Forall_forall. intros a Hin Hr.
    apply (first_rejection_raised calls); [| exact E].
    apply Exists_exists. now exists a.
  - intros HF.
    assert (Hres : Forall (fun a => exists raw,
                             Completion.result (snd a) = Resolved raw) calls).
    { eapply Forall_impl; [| exact HF]. intros a. apply not_raised_resolved. }
    pose proof (first_rejection_resolved calls Hres) as E.
    rewrite E. eexists. split; [reflexivity |].
    apply first_rejection_None in E.
    apply settled_fitted in E.
    + rewrite (fitted_platforms _ _ E). unfold calls.
      now rewrite answers_configs.
    + unfold calls. rewrite answers_configs.
      apply PLATFORM_CONFIGS_maxLength.
Qed.

Lemma generatePosts_fan_out_witness :
  length (trace (snd (PostsLogic.generatePosts Scenario.env_linkedin_fails
                        Scenario.example_url url None Scenario.empty_world)))
  = 4%nat
  /\ thrown (fst (PostsLogic.generatePosts Scenario.env_linkedin_fails
                    Scenario.example_url url None Scenario.empty_world))
     <> None.
Proof.
  pose proof (generatePosts_fan_out Scenario.env_linkedin_fails
                Scenario.example_url url None Scenario.empty_world eq_refl)
    as [Hw _].
  split.
  - rewrite Hw. reflexivity.
  - vm_compute. discriminate.
Defined.

Lemma research_reads_titles_and_snippets (index : Z)
    (l l' : list SearchResultItem.t) :
  map (fun i => (SearchResultItem.title i, SearchResultItem.snippet i)) l
  = map (fun i => (SearchResultItem.title i, SearchResultItem.snippet i)) l' ->
  PostsLogic.research index l = PostsLogic.research index l'.
Proof.
  revert index l'. induction l as [| a l IH]; intros index [| b l'] H;
    try discriminate; [reflexivity |].
  simpl in H. inversion H as [[Ht Hs Hr]].
  cbn [PostsLogic.research]. now rewrite Ht, Hs, (IH (index + 1) l' Hr).
Qed.

(** X10. For a topic, [generatePosts] reads the first five search results
    only, and of them the titles and snippets: results past the fifth, the
    URLs of the results, the query and the time of the search change
    neither the requests sent nor the outcome. *)
Theorem generatePosts_reads_first_five_results
    (env : Env) (source : jsstring) (r r' : SearchResult.t) (w : World) :
  map (fun i => (SearchResultItem.title i, SearchResultItem.snippet i))
    (firstn 5 (SearchResult.results r))
  = map (fun i => (SearchResultItem.title i, SearchResultItem.snippet i))
      (firstn 5 (SearchResult.results r')) ->
  PostsLogic.generatePosts env source topic (Some (Searched r)) w
  = PostsLogic.generatePosts env source topic (Some (Searched r')) w.
Proof.
  intros H.
  assert (Hctx : PostsLogic.build_context source topic (Some (Searched r))
                 = PostsLogic.build_context source topic (Some (Searched r'))).
  { unfold PostsLogic.build_context. cbn [PostsLogic.sd_results].
    now rewrite (research_reads_titles_and_snippets 0 _ _ H). }
  rewrite !generatePosts_unfold, Hctx. reflexivity.
Qed.

Lemma generatePosts_reads_first_five_results_witness :
  let six := repeat (SearchResultItem.mk (lit "t") (lit "u") (lit "s")) 6 in
  let five := repeat (SearchResultItem.mk (lit "t") (lit "v") (lit "s")) 5 in
  PostsLogic.generatePosts Scenario.env_article (lit "ab") topic
    (Some (Searched (SearchResult.mk (lit "ab") six 1))) Scenario.empty_world
  = PostsLogic.generatePosts Scenario.env_article (lit "ab") topic
      (Some (Searched (SearchResult.mk (lit "other") five 2)))
      Scenario.empty_world.
Proof.
  intros six five.
  apply (generatePosts_reads_first_five_results Scenario.env_article (lit "ab")
           (SearchResult.mk (lit "ab") six 1)
           (SearchResult.mk (lit "other") five 2) Scenario.empty_world).
  reflexivity.
Defined.

(** ** [create]: validation, the key, what is stored *)

(** X11. A source that is empty or white space only, or a source of type
    [url] that the URL parser rejects, makes [create] throw a bad request
    (400) at once: nothing is fetched, generated or stored. *)
Theorem create_rejects_bad_input (env : Env) (input : CreatePostInput.t)
    (w : World) :
  blank (CreatePostInput.source input) = true
  \/ (CreatePostInput.sourceType input = url
      /\ URL_parse env (CreatePostInput.source input) = None) ->
  exists message,
    PostsLogic.create env input w
    = (Throw (ThrownBoom (Boom.badRequest message)), w)
    /\ (blank (CreatePostInput.source input) = true ->
        message = lit "Source is required")
    /\ (blank (CreatePostInput.source input) = false ->
        message = lit "Invalid URL provided").
Proof.
  intros H. unfold PostsLogic.create.
  destruct (blank (CreatePostInput.source input)) eqn:Hb;
    unfold blank in Hb; rewrite Hb.
  - eexists. split; [reflexivity | split; [reflexivity | discriminate]].
  - destruct H as [H | [Hty Hnone]]; [discriminate |].
    rewrite Hty, Hnone. eexists.
    split; [reflexivity | split; [discriminate | reflexivity]].
Qed.

Lemma create_rejects_bad_input_witness :
  exists message,
    PostsLogic.create Scenario.env_article
      (CreatePostInput.mk (lit "not a url") url None) Scenario.empty_world
    = (Throw (ThrownBoom (Boom.badRequest message)), Scenario.empty_world)
    /\ message = lit "Invalid URL provided".
Proof.
  destruct (create_rejects_bad_input Scenario.env_article
              (CreatePostInput.mk (lit "not a url") url None)
              Scenario.empty_world)
    as (message & Hc & _ & Hm).
  - right. split; reflexivity.
  - exists message. split; [exact Hc | apply Hm; reflexivity].
Defined.

(** X12. The key is looked at after the extraction: where the module has
    been imported and the key that [generatePosts] reads is missing or
    empty by the time of the call, a valid [create] still fetches the page
    (or runs the search), then throws the internal error (500) 'OpenAI API
    key is not configured'; no completion is requested and nothing is
    stored. *)
Theorem create_without_key
    (env : Env) (input : CreatePostInput.t) (w w1 : World) (sd : ScrapedData) :
  imported env ->
  blank (CreatePostInput.source input) = false ->
  (CreatePostInput.sourceType input = url ->
   URL_parse env (CreatePostInput.source input) <> None) ->
  PostsLogic.scrape_or_search env (CreatePostInput.source input)
    (CreatePostInput.sourceType input) w = (Ok sd, w1) ->
  truthy (or_else (OPENAI_API_KEY env) []) = false ->
  PostsLogic.create env input w
  = (Throw (ThrownBoom (Boom.internal
       (lit "OpenAI API key is not configured"))), w1)
  /\ PostsApi.createHandler env (Resolved input) w
     = (sayError (lit "OpenAI API key is not configured") 500, w1)
  /\ collection w1 = collection w.
Proof.
  intros _ Hsrc Hurl Hs Hkey.
  assert (Hc : PostsLogic.create env input w
               = (Throw (ThrownBoom (Boom.internal
                    (lit "OpenAI API key is not configured"))), w1)).
  { rewrite create_unfold by assumption. rewrite Hs. unfold bind.
    rewrite generatePosts_unfold. now rewrite Hkey. }
  split; [exact Hc | split].
  - unfold PostsApi.createHandler, PostsApi.handler. run. now rewrite Hc.
  - eapply scrape_or_search_keeps. eassumption.
Qed.

Lemma create_without_key_witness :
  PostsApi.createHandler Scenario.env_key_removed
    (Resolved (CreatePostInput.mk Scenario.example_url url None))
    Scenario.empty_world
  = (sayError (lit "OpenAI API key is not configured") 500,
     mkWorld [] [EvFetch Scenario.example_url]).
Proof.
  refine (proj1 (proj2 (create_without_key Scenario.env_key_removed
            (CreatePostInput.mk Scenario.example_url url None)
            Scenario.empty_world
            (mkWorld [] [EvFetch Scenario.example_url])
            (Scraped (ScrapeResult.mk Scenario.example_url
                        (lit "Example Domain") []
                        (lit "An article about formal verification.") 1001))
            _ _ _ _ _))).
  - reflexivity.
  - reflexivity.
  - intros _. discriminate.
  - vm_compute. reflexivity.
  - reflexivity.
Defined.

Lemma existsb_has_id (id : jsstring) (l : list Post.t) :
  existsb (PostsDal.has_id id) l = false <-> ~ In id (map Post._id l).
Proof.
  induction l as [| p r IH]; simpl; [tauto |].
  unfold PostsDal.has_id at 1. rewrite orb_false_iff, IH.
  split.
  - intros [Hp Hr] [Heq | Hin]; [| tauto].
    rewrite Heq, eqb_refl in Hp. discriminate.
  - intros H. split; [| tauto].
    destruct (eqb (Post._id p) id) eqn:E; [| reflexivity].
    apply eqb_eq in E. tauto.
Qed.

Lemma find_has_id_app (id : jsstring) (l : list Post.t) (p : Post.t) :
  ~ In id (map Post._id l) -> Post._id p = id ->
  find (PostsDal.has_id id) (l ++ [p]) = Some p.
Proof.
  intros Hl Hp. induction l as [| q r IH]; simpl.
  - unfold PostsDal.has_id. now rewrite Hp, eqb_refl.
  - simpl in Hl. destruct (PostsDal.has_id id q) eqn:E.
    + apply eqb_eq in E. tauto.
    + apply IH. tauto.
Qed.

(** What [PostsDal.create] returns, when it returns. *)
Lemma PostsDal_create_Ok (env : Env) (data : CreatePostData.t)
    (w w' : World) (post : Post.t) :
  PostsDal.create env data w = (Ok post, w') ->
  let now := Date_now env (length (trace w)) in
  post = Post.mk (uuidv4 env (length (trace w)))
           (CreatePostData.source data) (CreatePostData.sourceType data)
           (CreatePostData.scrapedData data)
           (PostsDal.stamp_each (createdAt_default env (length (trace w))) 0
              (CreatePostData.generatedPosts data))
           now now
  /\ PostsDal.valid_variants (CreatePostData.generatedPosts data) = true
  /\ ~ In (Post._id post) (map Post._id (collection w))
  /\ w' = mkWorld (collection w ++ [post])
            (trace w ++ [EvSave (Post._id post)]).
Proof.
  unfold PostsDal.create, PostsDal.insertOne. run.
  cbn [Post.source Post._id collection trace].
  destruct (truthy (CreatePostData.source data)) eqn:Es; cbn [andb negb];
    [| discriminate].
  destruct (PostsDal.valid_variants (CreatePostData.generatedPosts data))
    eqn:Ev; cbn [negb]; [| discriminate].
  destruct (existsb (PostsDal.has_id (uuidv4 env (length (trace w))))
              (collection w)) eqn:Ee; [discriminate |].
  intros H. inversion H; subst. cbn [Post._id].
  repeat split. now apply existsb_has_id.
Qed.

(** What [create] returns, when it returns. *)
Lemma create_returns
    (env : Env) (input : CreatePostInput.t) (w w' : World) (post : Post.t) :
  PostsLogic.create env input w = (Ok post, w') ->
  let source := CreatePostInput.source input in
  let sourceType := CreatePostInput.sourceType input in
  exists sd w1 vs w2,
    PostsLogic.scrape_or_search env source sourceType w = (Ok sd, w1)
    /\ PostsLogic.generatePosts env source sourceType (Some sd) w1
       = (Ok vs, w2)
    /\ (let now := Date_now env (length (trace w2)) in
        post = Post.mk (uuidv4 env (length (trace w2))) source sourceType
                 (Some sd)
                 (PostsDal.stamp_each
                    (createdAt_default env (length (trace w2))) 0 vs)
                 now now)
    /\ PostsDal.valid_variants vs = true
    /\ ~ In (Post._id post) (map Post._id (collection w))
    /\ w' = mkWorld (collection w ++ [post])
              (trace w2 ++ [EvSave (Post._id post)]).
Proof.
  intros H source sourceType.
  destruct (blank (CreatePostInput.source input)) eqn:Hb.
  { unfold PostsLogic.create in H. unfold blank in Hb. rewrite Hb in H.
    discriminate. }
  assert (Hurl : CreatePostInput.sourceType input = url ->
                 URL_parse env (CreatePostInput.source input) <> None).
  { intros Hty Hnone. unfold PostsLogic.create in H. unfold blank in Hb.
    rewrite Hb, Hty, Hnone in H. discriminate. }
  rewrite create_unfold in H by assumption. fold source sourceType in H.
  destruct (PostsLogic.scrape_or_search env source sourceType w)
    as [[sd | e] w1] eqn:Hs; [| discriminate].
  unfold bind in H.
  destruct (PostsLogic.generatePosts env source sourceType (Some sd) w1)
    as [[vs | e] w2] eqn:Hg; [| discriminate].
  pose proof (proj1 (generatePosts_quiet _ _ _ _ _ _ _ Hg)) as Hk2.
  pose proof (scrape_or_search_keeps _ _ _ _ _ _ Hs) as Hk1.
  unfold keeps in Hk1.
  apply PostsDal_create_Ok in H.
  cbn [CreatePostData.source CreatePostData.sourceType
       CreatePostData.scrapedData CreatePostData.generatedPosts] in H.
  destruct H as (Hpost & Hvalid & Hfresh & Hw).
  exists sd, w1, vs, w2.
  split; [first [reflexivity | exact Hs] |].
  split; [first [reflexivity | exact Hg] |].
  split; [exact Hpost |]. split; [exact Hvalid |].
  split; [now rewrite Hk2, Hk1 in Hfresh |].
  now rewrite Hk2, Hk1 in Hw.
Qed.

Lemma stamped_valid (vs : list Variant.t) (gs : list GeneratedPost.t) :
  stamped vs gs -> PostsDal.valid_variants vs = true ->
  Forall (fun g => truthy (GeneratedPost.content g) = true) gs.
Proof.
  induction 1 as [| v g vs gs [_ Hc] _ IH]; intros Hv; constructor.
  - simpl in Hv. apply andb_true_iff in Hv. rewrite Hc. tauto.
  - apply IH. simpl in Hv. apply andb_true_iff in Hv. tauto.
Qed.

(** X13. The post that [create] returns is the one it has stored, last in
    the collection and under an id that no other document has: its source
    and type are those of the input, its [scrapedData] is what the
    extraction returned, its generated posts are the generated variants, in
    order and none of them empty, each with a creation time of its own, and
    its [updatedAt] equals its [createdAt], the time of the save. *)
Theorem create_stores_post
    (env : Env) (input : CreatePostInput.t) (w w' : World) (post : Post.t) :
  PostsLogic.create env input w = (Ok post, w') ->
  let source := CreatePostInput.source input in
  let sourceType := CreatePostInput.sourceType input in
  exists sd w1 vs w2,
    PostsLogic.scrape_or_search env source sourceType w = (Ok sd, w1)
    /\ PostsLogic.generatePosts env source sourceType (Some sd) w1
       = (Ok vs, w2)
    /\ Post._id post = uuidv4 env (length (trace w2))
    /\ Post.source post = source
    /\ Post.sourceType post = sourceType
    /\ Post.scrapedData post = Some sd
    /\ stamped vs (Post.generatedPosts post)
    /\ Post.generatedPosts post
       = PostsDal.stamp_each (createdAt_default env (length (trace w2))) 0 vs
    /\ Forall (fun g => truthy (GeneratedPost.content g) = true)
         (Post.generatedPosts post)
    /\ Post.createdAt post = Date_now env (length (trace w2))
    /\ Post.updatedAt post = Post.createdAt post
    /\ ~ In (Post._id post) (map Post._id (collection w))
    /\ w' = mkWorld (collection w ++ [post])
              (trace w2 ++ [EvSave (Post._id post)]).
Proof.
  intros H source sourceType.
  destruct (create_returns _ _ _ _ _ H)
    as (sd & w1 & vs & w2 & Hs & Hg & Hpost & Hvalid & Hfresh & Hw).
  exists sd, w1, vs, w2.
  split; [exact Hs | split; [exact Hg |]].
  cbv zeta in Hpost.
  assert (Hst : stamped vs (Post.generatedPosts post)).
  { rewrite Hpost. cbn [Post.generatedPosts]. apply stamp_each_stamped. }
  do 4 (split; [now rewrite Hpost |]).
  split; [exact Hst |]. split; [now rewrite Hpost |].
  split; [exact (stamped_valid _ _ Hst Hvalid) |].
  do 2 (split; [now rewrite Hpost |]). split; assumption.
Qed.

Lemma create_stores_post_witness :
  exists post w',
    PostsLogic.create Scenario.env_article
      (CreatePostInput.mk Scenario.example_url url None) Scenario.stored_world
    = (Ok post, w')
    /\ Post.source post = Scenario.example_url
    /\ Post.createdAt post = 1005
    /\ map GeneratedPost.createdAt (Post.generatedPosts post)
       = [550; 551; 552; 553]
    /\ length (collection w') = 4%nat.
Proof.
  destruct (PostsLogic.create Scenario.env_article
              (CreatePostInput.mk Scenario.example_url url None)
              Scenario.stored_world) as [[post | e] w'] eqn:E.
  - exists post, w'. split; [reflexivity |].
    destruct (create_stores_post _ _ _ _ _ E)
      as (sd & w1 & vs & w2 & Hs & Hg & _ & Hsrc & _ & _ & _ & Hgs & _ & Hc
          & _ & _ & Hw).
    vm_compute in Hs. injection Hs as <- <-.
    vm_compute in Hg. injection Hg as <- <-.
    rewrite Hsrc, Hc, Hgs, Hw. cbn [collection]. rewrite length_app.
    repeat split.
  - vm_compute in E. discriminate.
Defined.

(** X14. A post that has just been created can be read back: [getById] with
    the id of the post returns that very post, provided the id generated is
    not blank. *)
Theorem create_then_getById
    (env : Env) (input : CreatePostInput.t) (w w' : World) (post : Post.t) :
  PostsLogic.create env input w = (Ok post, w') ->
  blank (Post._id post) = false ->
  PostsLogic.getById (Post._id post) w'
  = (Ok post, mkWorld (collection w') (trace w' ++ [EvFindOne (Post._id post)])).
Proof.
  intros H Hid.
  destruct (create_returns _ _ _ _ _ H)
    as (sd & w1 & vs & w2 & _ & _ & _ & _ & Hfresh & Hw).
  unfold PostsLogic.getById. unfold blank in Hid. rewrite Hid.
  unfold PostsDal.getById, PostsDal.findOne. run.
  cbn [collection trace]. rewrite Hw. cbn [collection trace].
  now rewrite (find_has_id_app _ _ post Hfresh eq_refl).
Qed.

Lemma create_then_getById_witness :
  exists post w',
    PostsLogic.create Scenario.env_article
      (CreatePostInput.mk Scenario.example_url url None) Scenario.stored_world
    = (Ok post, w')
    /\ fst (PostsLogic.getById (Post._id post) w') = Ok post.
Proof.
  destruct (PostsLogic.create Scenario.env_article
              (CreatePostInput.mk Scenario.example_url url None)
              Scenario.stored_world) as [[post | e] w'] eqn:E.
  - exists post, w'. split; [reflexivity |].
    rewrite (create_then_getById _ _ _ _ _ E); [reflexivity |].
    vm_compute in E. inversion E. reflexivity.
  - vm_compute in E. discriminate.
Defined.

(** X15. A post that has just been created is listed: [list] then returns
    it among the posts, one post more than the collection held before. *)
Theorem create_then_list
    (env : Env) (input : CreatePostInput.t) (w w' : World) (post : Post.t) :
  PostsLogic.create env input w = (Ok post, w') ->
  exists posts,
    fst (PostsLogic.list w') = Ok posts
    /\ In post posts
    /\ length posts = S (length (collection w)).
Proof.
  intros H.
  destruct (create_returns _ _ _ _ _ H)
    as (sd & w1 & vs & w2 & _ & _ & _ & _ & _ & Hw).
  exists (PostsDal.sort_createdAt_desc (collection w')).
  split; [reflexivity |].
  pose proof (sort_createdAt_desc_perm (collection w')) as HP.
  split.
  - eapply Permutation_in; [exact HP |].
    rewrite Hw. cbn [collection]. apply in_or_app. right. now left.
  - rewrite <- (Permutation_length HP), Hw. cbn [collection].
    rewrite length_app. simpl. lia.
Qed.

Lemma create_then_list_witness :
  exists post w' posts,
    PostsLogic.create Scenario.env_article
      (CreatePostInput.mk Scenario.example_url url None) Scenario.stored_world
    = (Ok post, w')
    /\ fst (PostsLogic.list w') = Ok posts
    /\ In post posts /\ length posts = 4%nat.
Proof.
  destruct (PostsLogic.create Scenario.env_article
              (CreatePostInput.mk Scenario.example_url url None)
              Scenario.stored_world) as [[post | e] w'] eqn:E.
  - destruct (create_then_list _ _ _ _ _ E) as (posts & Hl & Hin & Hlen).
    exists post, w', posts. repeat split; assumption.
  - vm_compute in E. discriminate.
Defined.

Lemma fitted_empty (l : list (PlatformConfig.t * Completion.t))
    (vs : list Variant.t) :
  Forall2 fitted l vs ->
  Exists (fun a => exists raw,
            Completion.result (snd a) = Resolved raw
            /\ PostsLogic.completion_content raw = []) l ->
  PostsDal.valid_variants vs = false.
Proof.
  induction 1 as [| a v l vs Hf _ IH]; intros HE; inversion HE; subst.
  - destruct H0 as (raw & Hraw & Hempty).
    destruct Hf as (raw' & Hraw' & _ & Hle & Hfit & _).
    rewrite Hraw in Hraw'. inversion Hraw'; subst raw'.
    rewrite Hempty in Hfit.
    assert (Hc : Variant.content v = []).
    { apply Hfit. pose proof (len_nonneg (Variant.content v)).
      unfold len at 1. simpl. lia. }
    simpl. now rewrite Hc.
  - simpl. rewrite (IH H0). apply andb_false_r.
Qed.

(** X16. When every completion call returns but the text of one of them is
    empty once trimmed (or there is no text at all), the variant is empty,
    the schema refuses the post ([content] is required), [create] throws an
    error that is not a Boom error, the HTTP boundary answers 500 'Failed to
    create post', and nothing is stored. *)
Theorem create_empty_completion
    (env : Env) (input : CreatePostInput.t) (w w1 : World) (sd : ScrapedData) :
  let source := CreatePostInput.source input in
  let sourceType := CreatePostInput.sourceType input in
  let context := PostsLogic.build_context source sourceType (Some sd) in
  let calls :=
    answers env sourceType context (length (trace w1))
      PostsLogic.PLATFORM_CONFIGS in
  blank source = false ->
  (sourceType = url -> URL_parse env source <> None) ->
  PostsLogic.scrape_or_search env source sourceType w = (Ok sd, w1) ->
  truthy (or_else (OPENAI_API_KEY env) []) = true ->
  Forall (fun a => ~ raised (snd a)) calls ->
  Exists (fun a => exists raw,
            Completion.result (snd a) = Resolved raw
            /\ PostsLogic.completion_content raw = []) calls ->
  let w2 := mkWorld (collection w)
              (trace w1 ++ map (completion_request sourceType context)
                             PostsLogic.PLATFORM_CONFIGS) in
  PostsLogic.create env input w = (Throw PostsDal.ValidationError, w2)
  /\ PostsApi.createHandler env (Resolved input) w
     = (sayError (lit "Failed to create post") 500, w2).
Proof.
  intros source sourceType context calls Hsrc Hurl Hs Hkey Hres Hempty w2.
  pose proof (scrape_or_search_keeps _ _ _ _ _ _ Hs) as Hk. unfold keeps in Hk.
  assert (Hc : PostsLogic.create env input w
               = (Throw PostsDal.ValidationError, w2)).
  { rewrite create_unfold by assumption.
    fold source sourceType. rewrite Hs. unfold bind.
    rewrite generatePosts_unfold, Hkey. cbv zeta. fold context calls.
    assert (Hall : Forall (fun a => exists raw,
                             Completion.result (snd a) = Resolved raw) calls).
    { eapply Forall_impl; [| exact Hres]. intros a. apply not_raised_resolved. }
    pose proof (first_rejection_resolved calls Hall) as E.
    unfold PostsLogic.Promise_all. rewrite E.
    apply first_rejection_None in E. apply settled_fitted in E.
    2: { unfold calls. rewrite answers_configs.
         apply PLATFORM_CONFIGS_maxLength. }
    pose proof (fitted_empty _ _ E Hempty) as Hinvalid.
    unfold PostsDal.create. run.
    cbn [Post.source CreatePostData.generatedPosts CreatePostData.source].
    rewrite Hinvalid, andb_false_r. cbn [negb].
    unfold w2. now rewrite Hk. }
  split; [exact Hc |].
  unfold PostsApi.createHandler, PostsApi.handler. run. now rewrite Hc.
Qed.

Lemma create_empty_completion_witness :
  PostsApi.createHandler Scenario.env_blank_answer
    (Resolved (CreatePostInput.mk Scenario.example_url url None))
    Scenario.empty_world
  = (sayError (lit "Failed to create post") 500,
     snd (PostsLogic.create Scenario.env_blank_answer
            (CreatePostInput.mk Scenario.example_url url None)
            Scenario.empty_world))
  /\ collection (snd (PostsLogic.create Scenario.env_blank_answer
                        (CreatePostInput.mk Scenario.example_url url None)
                        Scenario.empty_world)) = [].
Proof.
  destruct (create_empty_completion Scenario.env_blank_answer
              (CreatePostInput.mk Scenario.example_url url None)
              Scenario.empty_world
              (mkWorld [] [EvFetch Scenario.example_url])
              (Scraped (ScrapeResult.mk Scenario.example_url
                          (lit "Example Domain") []
                          (lit "An article about formal verification.") 1001)))
    as [Hc Hh].
  - reflexivity.
  - intros _. discriminate.
  - vm_compute. reflexivity.
  - reflexivity.
  - repeat constructor; intros [f Hf]; vm_compute in Hf; discriminate.
  - apply Exists_cons_hd. eexists. split; vm_compute; reflexivity.
  - rewrite Hh, Hc. split; reflexivity.
Defined.

(** ** [getById] and [regenerate] *)

(** X17. For an id that is not blank, [getById] looks the collection up
    once and leaves it as it is: it returns the first post that has this id,
    and returns it again when called again; when no post has this id it
    throws not found (404). *)
Theorem getById_finds_or_404 (id : jsstring) (w : World) :
  blank id = false ->
  let w' := mkWorld (collection w) (trace w ++ [EvFindOne id]) in
  match find (PostsDal.has_id id) (collection w) with
  | Some p =>
      PostsLogic.getById id w = (Ok p, w')
      /\ Post._id p = id
      /\ In p (collection w)
      /\ fst (PostsLogic.getById id w') = Ok p
  | None =>
      PostsLogic.getById id w
      = (Throw (ThrownBoom (Boom.notFound (lit "Post not found"))), w')
      /\ ~ In id (map Post._id (collection w))
  end.
Proof.
  intros Hid w'. subst w'.
  unfold PostsLogic.getById. unfold blank in Hid. rewrite Hid.
  unfold PostsDal.getById, PostsDal.findOne. run. cbn [collection trace].
  destruct (find (PostsDal.has_id id) (collection w)) as [p |] eqn:E.
  - pose proof (find_some _ _ E) as [Hin Hp].
    split; [reflexivity |]. split; [now apply eqb_eq |].
    split; [exact Hin |]. reflexivity.
  - split; [reflexivity |]. apply existsb_has_id.
    destruct (existsb (PostsDal.has_id id) (collection w)) eqn:Ee;
      [| reflexivity].
    apply existsb_exists in Ee. destruct Ee as (p & Hin & Hp).
    now rewrite (find_none _ _ E p Hin) in Hp.
Qed.

Lemma getById_finds_or_404_witness :
  fst (PostsLogic.getById (lit "p3") Scenario.stored_world)
  = Ok (Scenario.old_post "p3" 20)
  /\ fst (PostsLogic.getById (lit "p9") Scenario.stored_world)
     = Throw (ThrownBoom (Boom.notFound (lit "Post not found"))).
Proof.
  pose proof (getById_finds_or_404 (lit "p3") Scenario.stored_world eq_refl)
    as H3.
  pose proof (getById_finds_or_404 (lit "p9") Scenario.stored_world eq_refl)
    as H9.
  cbv zeta in H3, H9.
  change (find (PostsDal.has_id (lit "p3")) (collection Scenario.stored_world))
    with (Some (Scenario.old_post "p3" 20)) in H3.
  change (find (PostsDal.has_id (lit "p9")) (collection Scenario.stored_world))
    with (@None Post.t) in H9.
  cbv iota in H3, H9.
  destruct H3 as [H3 _]. destruct H9 as [H9 _].
  rewrite H3, H9. split; reflexivity.
Defined.

Lemma replace_first_length (id : jsstring) (f : Post.t -> Post.t)
    (l : list Post.t) :
  length (snd (PostsDal.replace_first id f l)) = length l.
Proof.
  induction l as [| p r IH]; simpl; [reflexivity |].
  destruct (PostsDal.has_id id p); [reflexivity |].
  destruct (PostsDal.replace_first id f r). simpl in *. now rewrite IH.
Qed.

Lemma replace_first_others (id : jsstring) (f : Post.t -> Post.t)
    (l : list Post.t) (n : nat) (p : Post.t) :
  nth_error l n = Some p -> PostsDal.has_id id p = false ->
  nth_error (snd (PostsDal.replace_first id f l)) n = Some p.
Proof.
  revert n. induction l as [| q r IH]; intros n Hn Hp;
    [now destruct n |].
  simpl. destruct (PostsDal.has_id id q) eqn:E.
  - destruct n as [| n]; simpl in *; [| exact Hn].
    inversion Hn; subst. congruence.
  - destruct (PostsDal.replace_first id f r) eqn:Er. simpl in *.
    destruct n as [| n]; simpl in *; [exact Hn |]. now apply IH.
Qed.

Lemma replace_first_absent_none (id : jsstring) (f : Post.t -> Post.t)
    (l : list Post.t) :
  find (PostsDal.has_id id) l = None ->
  PostsDal.replace_first id f l = (None, l).
Proof.
  induction l as [| p r IH]; simpl; [reflexivity |].
  destruct (PostsDal.has_id id p); [discriminate |].
  intros H. now rewrite (IH H).
Qed.

Lemma replace_first_ids (id : jsstring) (f : Post.t -> Post.t)
    (l : list Post.t) :
  (forall p, Post._id (f p) = Post._id p) ->
  map Post._id (snd (PostsDal.replace_first id f l)) = map Post._id l.
Proof.
  intros Hf. induction l as [| p r IH]; simpl; [reflexivity |].
  destruct (PostsDal.has_id id p); simpl; [now rewrite Hf |].
  destruct (PostsDal.replace_first id f r). simpl in *. now rewrite IH.
Qed.

(** What [regenerate] does to the collection: nothing, or the update of the
    first post with this id by a function that keeps the id. *)
Lemma regenerate_collection (env : Env) (id : jsstring) (w : World) :
  collection (snd (PostsLogic.regenerate env id w)) = collection w
  \/ exists f,
       (forall p, Post._id (f p) = Post._id p)
       /\ collection (snd (PostsLogic.regenerate env id w))
          = snd (PostsDal.replace_first id f (collection w)).
Proof.
  unfold PostsLogic.regenerate.
  destruct (negb (truthy id) || (len (trim id) =? 0)); [now left |].
  unfold bind at 1. unfold PostsDal.getById, PostsDal.findOne. run.
  cbn [collection trace].
  destruct (find (PostsDal.has_id id) (collection w)) as [p |];
    [| now left].
  set (w1 := mkWorld (collection w) (trace w ++ [EvFindOne id])).
  destruct (PostsLogic.generatePosts env (Post.source p) (Post.sourceType p)
              (Post.scrapedData p) w1) as [[vs | e] w2] eqn:Hg;
    pose proof (proj1 (generatePosts_quiet _ _ _ _ _ _ _ Hg)) as Hk;
    subst w1; cbn [collection] in Hk.
  - unfold PostsDal.update, PostsDal.findOneAndUpdate. run.
    cbn [UpdatePostData.generatedPosts].
    destruct (PostsDal.valid_variants vs); cbn [negb];
      [| left; exact Hk].
    right. cbn [collection trace snd]. rewrite Hk.
    exists (PostsDal.set_ (Date_now env (length (trace w2)))
              (createdAt_default env (length (trace w2)))
              (UpdatePostData.mk (Some vs))).
    split; [reflexivity |].
    destruct (PostsDal.replace_first id
                (PostsDal.set_ (Date_now env (length (trace w2)))
                   (createdAt_default env (length (trace w2)))
                   (UpdatePostData.mk (Some vs))) (collection w))
      as [[q |] c]; reflexivity.
  - left. exact Hk.
Qed.

(** X18. [regenerate] touches one post at most: the collection keeps its
    length and its ids, in order, and every post with another id stays
    where it is, unchanged. No post is added or removed. *)
Theorem regenerate_keeps_other_posts (env : Env) (id : jsstring) (w : World) :
  let w' := snd (PostsLogic.regenerate env id w) in
  length (collection w') = length (collection w)
  /\ map Post._id (collection w') = map Post._id (collection w)
  /\ forall n p,
       nth_error (collection w) n = Some p ->
       Post._id p <> id ->
       nth_error (collection w') n = Some p.
Proof.
  intros w'. subst w'.
  destruct (regenerate_collection env id w) as [-> | (f & Hf & ->)].
  - repeat split. tauto.
  - split; [apply replace_first_length |].
    split; [now apply replace_first_ids |].
    intros n p Hn Hp. apply replace_first_others; [exact Hn |].
    unfold PostsDal.has_id. destruct (eqb (Post._id p) id) eqn:E;
      [| reflexivity].
    apply eqb_eq in E. contradiction.
Qed.

Lemma regenerate_keeps_other_posts_witness :
  nth_error
    (collection (snd (PostsLogic.regenerate Scenario.env_article (lit "p2")
                        Scenario.stored_world))) 2
  = Some (Scenario.old_post "p3" 20).
Proof.
  refine (proj2 (proj2 (regenerate_keeps_other_posts Scenario.env_article
                          (lit "p2") Scenario.stored_world))
            2%nat (Scenario.old_post "p3" 20) eq_refl _).
  vm_compute. discriminate.
Defined.

(** X19. When a platform's completion call raises while an existing post is
    regenerated, [regenerate] throws the internal error (500) that names a
    platform whose call raised, after the lookup and the four requests, and
    the collection is as it was: the post keeps its former variants. *)
Theorem regenerate_generation_failure
    (env : Env) (id : jsstring) (w : World) (p : Post.t) :
  blank id = false ->
  find (PostsDal.has_id id) (collection w) = Some p ->
  truthy (or_else (OPENAI_API_KEY env) []) = true ->
  let w1 := mkWorld (collection w) (trace w ++ [EvFindOne id]) in
  let context :=
    PostsLogic.build_context (Post.source p) (Post.sourceType p)
      (Post.scrapedData p) in
  let calls :=
    answers env (Post.sourceType p) context (length (trace w1))
      PostsLogic.PLATFORM_CONFIGS in
  Exists (fun a => raised (snd a)) calls ->
  exists a,
    In a calls /\ raised (snd a)
    /\ PostsLogic.regenerate env id w
       = (Throw (ThrownBoom (Boom.internal
            (lit "Failed to generate post for "
               ++ platform_name (PlatformConfig.platform (fst a))))),
          mkWorld (collection w)
            (trace w1 ++ map (completion_request (Post.sourceType p) context)
                           PostsLogic.PLATFORM_CONFIGS)).
Proof.
  intros Hid Hfind Hkey w1 context calls Hraised.
  assert (Hreg : PostsLogic.regenerate env id w
                 = bind (PostsLogic.generatePosts env (Post.source p)
                           (Post.sourceType p) (Post.scrapedData p))
                     (fun generatedPosts =>
                        PostsDal.update env id
                          (UpdatePostData.mk (Some generatedPosts))) w1).
  { unfold PostsLogic.regenerate. unfold blank in Hid. rewrite Hid.
    unfold bind at 1. unfold PostsDal.getById, PostsDal.findOne. run.
    cbn [collection trace]. now rewrite Hfind. }
  rewrite Hreg. unfold bind. rewrite generatePosts_unfold.
  rewrite Hkey. cbv zeta. fold context calls.
  unfold PostsLogic.Promise_all.
  destruct (PostsLogic.first_rejection (map promise_of calls))
    as [[t e] |] eqn:E.
  - destruct (first_rejection_Some _ _ _ E) as (a & Hin & Hr & ->).
    exists a. repeat split; assumption.
  - exfalso. now apply (first_rejection_raised calls).
Qed.

Lemma regenerate_generation_failure_witness :
  thrown (fst (PostsLogic.regenerate Scenario.env_linkedin_fails (lit "p2")
                 Scenario.stored_world))
  = Some (ThrownBoom (Boom.internal
            (lit "Failed to generate post for linkedin")))
  /\ collection (snd (PostsLogic.regenerate Scenario.env_linkedin_fails
                        (lit "p2") Scenario.stored_world))
     = collection Scenario.stored_world.
Proof.
  destruct (regenerate_generation_failure Scenario.env_linkedin_fails
              (lit "p2") Scenario.stored_world (Scenario.old_post "p2" 30)
              eq_refl eq_refl eq_refl)
    as (a & Hin & Hr & Hc).
  - apply Exists_cons_tl, Exists_cons_hd.
    eexists. vm_compute. reflexivity.
  - rewrite Hc. cbn [fst snd thrown collection]. split; [| reflexivity].
    destruct Hr as [f Hf]. cbn in Hin.
    destruct Hin as [<- | [<- | [<- | [<- | []]]]];
      try reflexivity; vm_compute in Hf; discriminate.
Defined.

(** ** The collection: ids, deletion, filtering *)

Lemma remove_first_ids_incl (id : jsstring) (l : list Post.t) (x : jsstring) :
  In x (map Post._id (snd (PostsDal.remove_first id l))) ->
  In x (map Post._id l).
Proof.
  induction l as [| p r IH]; simpl; [tauto |].
  destruct (PostsDal.has_id id p); simpl; [tauto |].
  destruct (PostsDal.remove_first id r). simpl in *. tauto.
Qed.

Lemma remove_first_NoDup (id : jsstring) (l : list Post.t) :
  NoDup (map Post._id l) ->
  NoDup (map Post._id (snd (PostsDal.remove_first id l))).
Proof.
  induction l as [| p r IH]; simpl; intros H; [constructor |].
  inversion H as [| x xs Hnot Hrest]; subst.
  destruct (PostsDal.has_id id p); simpl; [exact Hrest |].
  pose proof (remove_first_ids_incl id r (Post._id p)) as Hincl.
  destruct (PostsDal.remove_first id r) as [n r']. simpl in *.
  constructor; [tauto | now apply IH].
Qed.

Lemma create_collection (env : Env) (input : CreatePostInput.t) (w : World) :
  collection (snd (PostsLogic.create env input w)) = collection w
  \/ exists post,
       collection (snd (PostsLogic.create env input w))
       = collection w ++ [post]
       /\ ~ In (Post._id post) (map Post._id (collection w)).
Proof.
  destruct (PostsLogic.create env input w) as [[post | e] w'] eqn:E.
  - right. exists post.
    destruct (create_returns _ _ _ _ _ E)
      as (sd & w1 & vs & w2 & _ & _ & _ & _ & Hfresh & ->).
    split; [reflexivity | exact Hfresh].
  - left. exact (create_all_or_nothing _ _ _ _ _ E).
Qed.

(** X20. Ids stay unique: when no two documents of the collection share
    their id, this is still so after [create] (a duplicate id is refused by
    the store), after [regenerate] (which keeps ids) and after [delete]. *)
Theorem unique_ids_preserved
    (env : Env) (input : CreatePostInput.t) (id : jsstring) (w : World) :
  unique_ids w ->
  unique_ids (snd (PostsLogic.create env input w))
  /\ unique_ids (snd (PostsLogic.regenerate env id w))
  /\ unique_ids (snd (PostsDal.delete id w)).
Proof.
  unfold unique_ids. intros H. split; [| split].
  - destruct (create_collection env input w) as [-> | (post & -> & Hfresh)];
      [exact H |].
    rewrite map_app. simpl.
    apply NoDup_app; [exact H | repeat constructor; tauto |].
    intros x Hx [<- | []]. contradiction.
  - destruct (regenerate_collection env id w) as [-> | (f & Hf & ->)];
      [exact H |].
    now rewrite replace_first_ids.
  - unfold PostsDal.delete, PostsDal.deleteOne, bind.
    pose proof (remove_first_NoDup id (collection w) H) as Hd.
    destruct (PostsDal.remove_first id (collection w)) as [n c].
    simpl in Hd.
    destruct (Z.of_nat n =? 0); exact Hd.
Qed.

Lemma unique_ids_preserved_witness :
  unique_ids
    (snd (PostsLogic.create Scenario.env_article
            (CreatePostInput.mk Scenario.example_url url None)
            Scenario.stored_world))
  /\ unique_ids (snd (PostsDal.delete (lit "p2") Scenario.stored_world)).
Proof.
  assert (H : unique_ids Scenario.stored_world).
  { unfold unique_ids. cbn.
    repeat constructor; cbn; intuition discriminate. }
  destruct (unique_ids_preserved Scenario.env_article
              (CreatePostInput.mk Scenario.example_url url None) (lit "p2")
              Scenario.stored_world H) as (Hc & _ & Hd).
  split; assumption.
Defined.

Lemma remove_first_absent (id : jsstring) (l : list Post.t) :
  find (PostsDal.has_id id) l = None ->
  PostsDal.remove_first id l = (0%nat, l).
Proof.
  induction l as [| p r IH]; simpl; [reflexivity |].
  destruct (PostsDal.has_id id p); [discriminate |].
  intros H. now rewrite (IH H).
Qed.

Lemma remove_first_present (id : jsstring) (l : list Post.t) (p : Post.t) :
  find (PostsDal.has_id id) l = Some p ->
  exists l1 l2,
    l = l1 ++ p :: l2
    /\ Forall (fun q => Post._id q <> id) l1
    /\ Post._id p = id
    /\ PostsDal.remove_first id l = (1%nat, l1 ++ l2).
Proof.
  induction l as [| q r IH]; simpl; [discriminate |].
  destruct (PostsDal.has_id id q) eqn:E.
  - intros H. inversion H; subst. exists [], r.
    repeat split; [constructor | now apply eqb_eq].
  - intros H. destruct (IH H) as (l1 & l2 & -> & Hl1 & Hp & Hr).
    exists (q :: l1), l2. rewrite Hr. repeat split; try assumption.
    constructor; [| exact Hl1].
    intros Hq. unfold PostsDal.has_id in E. now rewrite Hq, eqb_refl in E.
Qed.

(** X21. [delete] removes the first post that has the id, and only it: the
    posts before and after it stay, in order. When no post has the id it
    throws not found (404) and the collection is as it was. *)
Theorem delete_removes_first (id : jsstring) (w : World) :
  match find (PostsDal.has_id id) (collection w) with
  | Some p =>
      exists l1 l2,
        collection w = l1 ++ p :: l2
        /\ Forall (fun q => Post._id q <> id) l1
        /\ Post._id p = id
        /\ PostsDal.delete id w = (Ok tt, mkWorld (l1 ++ l2) (trace w))
  | None =>
      PostsDal.delete id w
      = (Throw (ThrownBoom (Boom.notFound (lit "Post not found"))), w)
  end.
Proof.
  unfold PostsDal.delete, PostsDal.deleteOne, bind.
  destruct (find (PostsDal.has_id id) (collection w)) as [p |] eqn:E.
  - destruct (remove_first_present _ _ _ E) as (l1 & l2 & Hl & Hl1 & Hp & Hr).
    exists l1, l2. rewrite Hr. repeat split; assumption.
  - rewrite (remove_first_absent _ _ E). now destruct w.
Qed.

Lemma find_absent (id : jsstring) (l : list Post.t) :
  ~ In id (map Post._id l) -> find (PostsDal.has_id id) l = None.
Proof.
  intros H. apply existsb_has_id in H.
  destruct (find (PostsDal.has_id id) l) as [p |] eqn:E; [| reflexivity].
  apply find_some in E. destruct E as [Hin Hp].
  assert (Hex : existsb (PostsDal.has_id id) l = true)
    by (apply existsb_exists; now exists p).
  congruence.
Qed.

(** X22. With unique ids, a deleted post is gone: after [delete] of an
    existing id, [getById] with this id throws not found (404). *)
Theorem delete_then_getById (id : jsstring) (w : World) (p : Post.t) :
  unique_ids w ->
  blank id = false ->
  find (PostsDal.has_id id) (collection w) = Some p ->
  fst (PostsDal.delete id w) = Ok tt
  /\ fst (PostsLogic.getById id (snd (PostsDal.delete id w)))
     = Throw (ThrownBoom (Boom.notFound (lit "Post not found"))).
Proof.
  intros Hu Hid Hfind.
  unfold PostsDal.delete, PostsDal.deleteOne, bind.
  destruct (remove_first_present _ _ _ Hfind)
    as (l1 & l2 & Hl & Hl1 & Hp & Hr).
  rewrite Hr. cbn [fst snd Z.of_nat Z.eqb Pos.eqb]. split; [reflexivity |].
  unfold PostsLogic.getById. unfold blank in Hid. rewrite Hid.
  unfold PostsDal.getById, PostsDal.findOne. run. cbn [collection trace].
  rewrite find_absent; [reflexivity |].
  unfold unique_ids in Hu. rewrite Hl, map_app in Hu. simpl in Hu.
  apply NoDup_remove_2 in Hu. rewrite Hp in Hu.
  cbn [snd collection]. now rewrite map_app.
Qed.

Lemma delete_then_getById_witness :
  fst (PostsLogic.getById (lit "p2")
         (snd (PostsDal.delete (lit "p2") Scenario.stored_world)))
  = Throw (ThrownBoom (Boom.notFound (lit "Post not found"))).
Proof.
  refine (proj2 (delete_then_getById (lit "p2") Scenario.stored_world
                   (Scenario.old_post "p2" 30) _ eq_refl eq_refl)).
  unfold unique_ids. cbn.
  repeat constructor; cbn; intuition discriminate.
Defined.

Lemma sourceType_eqb_eq (a b : SourceType) :
  PostsDal.sourceType_eqb a b = true <-> a = b.
Proof. destruct a, b; simpl; split; intros H; congruence. Qed.

(** X23. [getBySourceType] returns all the posts of the type asked for and
    no other (a permutation of those of the collection), the most recently
    created first, and leaves the collection as it is. *)
Theorem getBySourceType_filters_and_sorts (sourceType : SourceType) (w : World) :
  exists posts,
    PostsLogic.getBySourceType sourceType w
    = (Ok posts, mkWorld (collection w) (trace w ++ [EvFind]))
    /\ Forall (fun p => Post.sourceType p = sourceType /\ In p (collection w))
         posts
    /\ (forall p, In p (collection w) -> Post.sourceType p = sourceType ->
                  In p posts)
    /\ Permutation
         (filter (fun p => PostsDal.sourceType_eqb (Post.sourceType p) sourceType)
            (collection w)) posts
    /\ StronglySorted (fun a b => Post.createdAt a >= Post.createdAt b) posts.
Proof.
  set (kept := filter (fun p => PostsDal.sourceType_eqb (Post.sourceType p)
                                  sourceType) (collection w)).
  exists (PostsDal.sort_createdAt_desc kept).
  pose proof (sort_createdAt_desc_perm kept) as HP.
  split; [reflexivity | split; [| split; [| split]]].
  - apply Forall_forall. intros p Hin.
    apply (Permutation_in _ (Permutation_sym HP)) in Hin.
    apply filter_In in Hin. destruct Hin as [Hin Hty].
    split; [now apply sourceType_eqb_eq | exact Hin].
  - intros p Hin Hty. apply (Permutation_in _ HP).
    apply filter_In. split; [exact Hin | now apply sourceType_eqb_eq].
  - exact HP.
  - apply sort_createdAt_desc_sorted.
Qed.

Lemma filter_partition_perm {A} (f g : A -> bool) (l : list A) :
  (forall x, g x = negb (f x)) ->
  Permutation (filter f l ++ filter g l) l.
Proof.
  intros Hfg. induction l as [| x l IH]; simpl; [constructor |].
  rewrite Hfg. destruct (f x); simpl.
  - now constructor.
  - rewrite <- Permutation_middle. now constructor.
Qed.

(** X24. The two types split the list: the posts that [getBySourceType]
    returns for [url] and for [topic], taken together, are the posts that
    [list] returns, each exactly once. *)
Theorem getBySourceType_partitions_list (w : World) :
  exists urls topics all,
    fst (PostsLogic.getBySourceType url w) = Ok urls
    /\ fst (PostsLogic.getBySourceType topic w) = Ok topics
    /\ fst (PostsLogic.list w) = Ok all
    /\ Permutation (urls ++ topics) all.
Proof.
  eexists. eexists. eexists.
  split; [reflexivity | split; [reflexivity | split; [reflexivity |]]].
  rewrite <- !sort_createdAt_desc_perm.
  apply filter_partition_perm.
  intros p. now destruct (Post.sourceType p).
Qed.

(** X25. For variants that all have a content, [PostsDal.update] sends one
    request: an absent id gives not found (404) with the collection as it
    was, and a present id gives back the first post with that id, now
    stored in its place: its generated posts are the given variants, in
    order, each with a creation time of its own, its [updatedAt] is the
    time of the update, the other fields are kept, and the collection keeps
    its length. *)
Theorem update_writes_or_404
    (env : Env) (id : jsstring) (vs : list Variant.t) (w : World) :
  PostsDal.valid_variants vs = true ->
  let data := UpdatePostData.mk (Some vs) in
  let w1 := mkWorld (collection w) (trace w ++ [EvFindOneAndUpdate id]) in
  match find (PostsDal.has_id id) (collection w) with
  | None =>
      PostsDal.update env id data w
      = (Throw (ThrownBoom (Boom.notFound (lit "Post not found"))), w1)
  | Some p =>
      exists q w',
        PostsDal.update env id data w = (Ok q, w')
        /\ Post._id q = Post._id p
        /\ Post.source q = Post.source p
        /\ Post.sourceType q = Post.sourceType p
        /\ Post.scrapedData q = Post.scrapedData p
        /\ Post.createdAt q = Post.createdAt p
        /\ stamped vs (Post.generatedPosts q)
        /\ Post.generatedPosts q
           = PostsDal.stamp_each (createdAt_default env (length (trace w))) 0 vs
        /\ Post.updatedAt q = Date_now env (length (trace w))
        /\ trace w' = trace w1
        /\ length (collection w') = length (collection w)
        /\ find (PostsDal.has_id id) (collection w') = Some q
  end.
Proof.
  intros Hvalid data w1.
  unfold PostsDal.update, PostsDal.findOneAndUpdate. run.
  cbn [UpdatePostData.generatedPosts data]. rewrite Hvalid. cbn [negb].
  cbn [collection trace].
  destruct (find (PostsDal.has_id id) (collection w)) as [p |] eqn:E.
  - rewrite (replace_first_present _ _ _ _ E).
    eexists. eexists. split; [reflexivity |].
    cbn [PostsDal.set_ UpdatePostData.generatedPosts Post._id Post.source
         Post.sourceType Post.scrapedData Post.createdAt Post.updatedAt
         Post.generatedPosts trace collection].
    do 5 (split; [reflexivity |]).
    split; [apply stamp_each_stamped |].
    do 3 (split; [reflexivity |]).
    split; [apply replace_first_length |].
    apply (find_replace_first _ _ _ p E). exact (find_has_id _ _ _ E).
  - rewrite (replace_first_absent_none _ _ _ E). reflexivity.
Qed.

Lemma update_writes_or_404_witness :
  fst (PostsDal.update Scenario.env_article (lit "p9")
         (UpdatePostData.mk (Some Scenario.fitted_variants))
         Scenario.stored_world)
  = Throw (ThrownBoom (Boom.notFound (lit "Post not found")))
  /\ exists q,
       fst (PostsDal.update Scenario.env_article (lit "p1")
              (UpdatePostData.mk (Some Scenario.fitted_variants))
              Scenario.stored_world) = Ok q
       /\ Post.createdAt q = 10 /\ Post.updatedAt q = 1000
       /\ map GeneratedPost.createdAt (Post.generatedPosts q)
          = [500; 501; 502; 503].
Proof.
  pose proof (update_writes_or_404 Scenario.env_article (lit "p9")
                Scenario.fitted_variants Scenario.stored_world eq_refl) as H9.
  pose proof (update_writes_or_404 Scenario.env_article (lit "p1")
                Scenario.fitted_variants Scenario.stored_world eq_refl) as H1.
  cbv zeta in H9, H1.
  change (find (PostsDal.has_id (lit "p9")) (collection Scenario.stored_world))
    with (@None Post.t) in H9.
  change (find (PostsDal.has_id (lit "p1")) (collection Scenario.stored_world))
    with (Some (Scenario.old_post "p1" 10)) in H1.
  cbv iota in H9, H1.
  destruct H1 as (q & w' & H1 & _ & _ & _ & _ & Hc & _ & Hgs & Hu & _).
  rewrite H9, H1. split; [reflexivity |].
  exists q. split; [reflexivity |]. rewrite Hc, Hu, Hgs. repeat split.
Defined.

(** ** The HTTP boundary *)

Lemma generatePosts_throws
    (env : Env) (source : jsstring) (sourceType : SourceType)
    (scrapedData : option ScrapedData) (w w' : World) (e : Thrown) :
  PostsLogic.generatePosts env source sourceType scrapedData w = (Throw e, w') ->
  exists message, e = ThrownBoom (Boom.internal message).
Proof.
  rewrite generatePosts_unfold.
  destruct (truthy (or_else (OPENAI_API_KEY env) []));
    [| intros H; inversion H; now eexists].
  cbv zeta. unfold PostsLogic.Promise_all.
  match goal with
  | |- context [PostsLogic.first_rejection ?l] =>
      destruct (PostsLogic.first_rejection l) as [[t e0] |] eqn:E
  end; [| discriminate].
  intros H. inversion H; subst.
  destruct (first_rejection_Some _ _ _ E) as (a & _ & _ & ->).
  now eexists.
Qed.

Lemma PostsDal_create_throws (env : Env) (data : CreatePostData.t)
    (w w' : World) (e : Thrown) :
  PostsDal.create env data w = (Throw e, w') -> isBoom e = false.
Proof.
  unfold PostsDal.create, PostsDal.insertOne. run.
  cbn [Post.source Post._id collection trace].
  destruct (truthy (CreatePostData.source data)
            && PostsDal.valid_variants (CreatePostData.generatedPosts data));
    cbn [negb].
  - match goal with
    | |- context [existsb ?f ?l] => destruct (existsb f l)
    end; intros H; inversion H; reflexivity.
  - intros H; inversion H; reflexivity.
Qed.

Lemma PostsDal_update_throws (env : Env) (id : jsstring)
    (data : UpdatePostData.t) (w w' : World) (e : Thrown) :
  PostsDal.update env id data w = (Throw e, w') ->
  collection w' = collection w
  /\ (isBoom e = false
      \/ e = ThrownBoom (Boom.notFound (lit "Post not found"))).
Proof.
  unfold PostsDal.update, PostsDal.findOneAndUpdate. run.
  match goal with
  | |- context [if negb ?c then _ else _] => destruct c
  end; cbn [negb]; [| intros H; inversion H; subst; now split; [| left]].
  cbn [collection trace].
  destruct (find (PostsDal.has_id id) (collection w)) as [p |] eqn:E.
  - rewrite (replace_first_present _ _ _ _ E). discriminate.
  - rewrite (replace_first_absent_none _ _ _ E).
    intros H; inversion H; subst. split; [reflexivity | now right].
Qed.

(** What [create] throws. *)
Lemma create_throws (env : Env) (input : CreatePostInput.t) (w w' : World)
    (e : Thrown) :
  PostsLogic.create env input w = (Throw e, w') ->
  isBoom e = false
  \/ exists b, e = ThrownBoom b
               /\ (Boom.statusCode b = 400 \/ Boom.statusCode b = 500).
Proof.
  intros H.
  destruct (blank (CreatePostInput.source input)) eqn:Hb.
  { unfold PostsLogic.create in H. unfold blank in Hb. rewrite Hb in H.
    inversion H. right. eexists. split; [reflexivity | now left]. }
  destruct (CreatePostInput.sourceType input) eqn:Hty.
  - destruct (URL_parse env (CreatePostInput.source input)) as [u |] eqn:Hu.
    2: { unfold PostsLogic.create in H. unfold blank in Hb.
         rewrite Hb, Hty, Hu in H. inversion H.
         right. eexists. split; [reflexivity | now left]. }
    rewrite create_unfold in H; [| exact Hb | rewrite Hu; discriminate].
    rewrite Hty in H.
    destruct (PostsLogic.scrape_or_search env (CreatePostInput.source input)
                url w) as [[sd | e0] w1].
    2: { inversion H. right. eexists. split; [reflexivity | now left]. }
    unfold bind in H.
    destruct (PostsLogic.generatePosts env (CreatePostInput.source input) url
                (Some sd) w1) as [[vs | e0] w2] eqn:Hg.
    + left. exact (PostsDal_create_throws _ _ _ _ _ H).
    + inversion H; subst. destruct (generatePosts_throws _ _ _ _ _ _ _ Hg)
        as [m ->].
      right. eexists. split; [reflexivity | now right].
  - rewrite create_unfold in H; [| exact Hb | rewrite Hty; discriminate].
    rewrite Hty in H.
    destruct (PostsLogic.scrape_or_search env (CreatePostInput.source input)
                topic w) as [[sd | e0] w1].
    2: { inversion H. right. eexists. split; [reflexivity | now left]. }
    unfold bind in H.
    destruct (PostsLogic.generatePosts env (CreatePostInput.source input) topic
                (Some sd) w1) as [[vs | e0] w2] eqn:Hg.
    + left. exact (PostsDal_create_throws _ _ _ _ _ H).
    + inversion H; subst. destruct (generatePosts_throws _ _ _ _ _ _ _ Hg)
        as [m ->].
      right. eexists. split; [reflexivity | now right].
Qed.

(** X26. [createHandler] answers 201 with the post it has stored, or an
    error with status 400 or 500 and the collection as it was; it never
    answers 404 or 502, whatever the extractor threw. A request body that
    cannot be parsed gives 500 'Failed to create post' with nothing done. *)
Theorem createHandler_statuses
    (env : Env) (req_json : Settled CreatePostInput.t) (w : World) :
  (let (response, w') := PostsApi.createHandler env req_json w in
   (HttpResponse.status response = 201
    /\ exists post, HttpResponse.body response = JsonPost post
                    /\ collection w' = collection w ++ [post])
   \/ ((HttpResponse.status response = 400
        \/ HttpResponse.status response = 500)
       /\ (exists message, HttpResponse.body response = JsonError message)
       /\ collection w' = collection w))
  /\ (forall f, req_json = Rejected f ->
                PostsApi.createHandler env req_json w
                = (sayError (lit "Failed to create post") 500, w)).
Proof.
  split.
  - unfold PostsApi.createHandler, PostsApi.handler.
    destruct req_json as [input | f]; run.
    2: { right. destruct f; cbn; repeat split; eauto. }
    destruct (PostsLogic.create env input w) as [[post | e] w'] eqn:E.
    + left. split; [reflexivity |]. exists post. split; [reflexivity |].
      exact (proj1 (create_all_or_nothing _ _ _ _ _ E)).
    + right. pose proof (create_all_or_nothing _ _ _ _ _ E) as Hk.
      destruct (create_throws _ _ _ _ _ E) as [Hnb | (b & -> & Hs)].
      * destruct e; [discriminate | |]; cbn; repeat split; eauto.
      * cbn. repeat split; eauto.
  - intros f ->. unfold PostsApi.createHandler, PostsApi.handler. run.
    now destruct f.
Qed.

(** X27. [getByIdHandler] answers 400 'Post ID is required' to a blank id
    without consulting the store, 200 with the first post that has the id
    when there is one, and 404 'Post not found' otherwise; it never changes
    the collection. *)
Theorem getByIdHandler_responses (id : jsstring) (w : World) :
  let w1 := mkWorld (collection w) (trace w ++ [EvFindOne id]) in
  PostsApi.getByIdHandler id w
  = if blank id then (sayError (lit "Post ID is required") 400, w)
    else match find (PostsDal.has_id id) (collection w) with
         | Some p => (say (JsonPost p) 200, w1)
         | None => (sayError (lit "Post not found") 404, w1)
         end.
Proof.
  intros w1. unfold PostsApi.getByIdHandler, PostsApi.handler,
    PostsLogic.getById, blank.
  destruct (negb (truthy id) || (len (trim id) =? 0)); [reflexivity |].
  unfold PostsDal.getById, PostsDal.findOne. run. cbn [collection trace].
  now destruct (find (PostsDal.has_id id) (collection w)).
Qed.

(** What [regenerate] returns or throws. *)
Lemma regenerate_cases (env : Env) (id : jsstring) (w w' : World)
    (o : Outcome Post.t) :
  PostsLogic.regenerate env id w = (o, w') ->
  match o with
  | Ok q =>
      Post._id q = id
      /\ find (PostsDal.has_id id) (collection w') = Some q
  | Throw e =>
      collection w' = collection w
      /\ (isBoom e = false
          \/ exists b, e = ThrownBoom b
                       /\ (Boom.statusCode b = 400 \/ Boom.statusCode b = 404
                           \/ Boom.statusCode b = 500))
  end.
Proof.
  unfold PostsLogic.regenerate.
  destruct (negb (truthy id) || (len (trim id) =? 0)).
  { intros H; inversion H; subst. split; [reflexivity |].
    right. eexists. split; [reflexivity | now left]. }
  unfold bind at 1. unfold PostsDal.getById, PostsDal.findOne. run.
  cbn [collection trace].
  destruct (find (PostsDal.has_id id) (collection w)) as [p |] eqn:Hfind.
  2: { intros H; inversion H; subst. split; [reflexivity |].
       right. eexists. split; [reflexivity | right; now left]. }
  set (w1 := mkWorld (collection w) (trace w ++ [EvFindOne id])).
  destruct (PostsLogic.generatePosts env (Post.source p) (Post.sourceType p)
              (Post.scrapedData p) w1) as [[vs | e] w2] eqn:Hg;
    pose proof (proj1 (generatePosts_quiet _ _ _ _ _ _ _ Hg)) as Hk;
    subst w1; cbn [collection] in Hk.
  - intros H. destruct o as [q | e].
    + unfold PostsDal.update, PostsDal.findOneAndUpdate in H. revert H. run.
      cbn [UpdatePostData.generatedPosts].
      destruct (PostsDal.valid_variants vs); cbn [negb]; [| discriminate].
      cbn [collection trace]. rewrite Hk.
      rewrite (replace_first_present _ _ _ _ Hfind).
      intros H. inversion H; subst. cbn [collection].
      pose proof (find_has_id _ _ _ Hfind) as Hp.
      assert (Hq : PostsDal.has_id id
                     (PostsDal.set_ (Date_now env (length (trace w2)))
                        (createdAt_default env (length (trace w2)))
                        (UpdatePostData.mk (Some vs)) p) = true) by exact Hp.
      split; [now apply eqb_eq in Hq |].
      now apply (find_replace_first _ _ _ p).
    + destruct (PostsDal_update_throws _ _ _ _ _ _ H) as [Hc He].
      split; [congruence |].
      destruct He as [He | ->]; [now left |].
      right. eexists. split; [reflexivity | right; now left].
  - intros H; inversion H; subst. split; [exact Hk |].
    destruct (generatePosts_throws _ _ _ _ _ _ _ Hg) as [m ->].
    right. eexists. split; [reflexivity | right; now right].
Qed.

(** X28. [regenerateHandler] answers 200 with the post now stored under the
    id, or an error with status 400, 404 or 500 and the collection as it
    was. *)
Theorem regenerateHandler_statuses (env : Env) (id : jsstring) (w : World) :
  let (response, w') := PostsApi.regenerateHandler env id w in
  (HttpResponse.status response = 200
   /\ exists post, HttpResponse.body response = JsonPost post
                   /\ Post._id post = id
                   /\ find (PostsDal.has_id id) (collection w') = Some post)
  \/ ((HttpResponse.status response = 400
       \/ HttpResponse.status response = 404
       \/ HttpResponse.status response = 500)
      /\ (exists message, HttpResponse.body response = JsonError message)
      /\ collection w' = collection w).
Proof.
  unfold PostsApi.regenerateHandler, PostsApi.handler.
  destruct (PostsLogic.regenerate env id w) as [[post | e] w'] eqn:E;
    pose proof (regenerate_cases _ _ _ _ _ E) as H; cbv beta iota in H.
  - left. split; [reflexivity |]. exists post. split; [reflexivity | exact H].
  - right. destruct H as [Hc [Hnb | (b & -> & Hs)]].
    + destruct e; [discriminate | |]; cbn; repeat split; eauto.
    + cbn. repeat split; eauto.
Qed.
